(** * FlexiQuote: the pricing rule engine (app/rules_engine.py, app/main.py)

    A shallow embedding of the rule engine of FlexiQuote and of the quote
    orchestration, with the properties its specification states.

    Modelling conventions.
    - A [decimal.Decimal] is a coefficient and an exponent, as in Python;
      arithmetic is exact.  Python's default context keeps 28 significant
      digits: where Python would round a result to 28 digits the model
      raises the pseudo-exception [OutOfModel], and where Python's
      [quantize] raises [InvalidOperation] so does the model.  The signed
      zero, NaN and Infinity are not represented; a parameter string that
      spells NaN or Infinity is flagged [OutOfModel].
    - A Python [float] is an IEEE-754 binary64 number, kept as an exact
      integer mantissa and a binary exponent (or an infinity); conversions
      round to nearest, ties to even, as CPython does.
    - JSON columns ([Rule.condition], [Rule.parameters], request
      attributes) are JSON values; objects are association lists.
    - Exceptions are explicit: every engine function returns a [result]. *)

From Stdlib Require Import ZArith QArith Qabs Qpower Lqa List String Ascii Bool Lia Permutation Sorted.
Import ListNotations.
Local Open Scope Z_scope.

(** ** Exceptions and the result monad *)

Inductive exn : Type :=
| InvalidOperation   (* decimal.InvalidOperation *)
| ValueError
| TypeError
| AttributeError
| OverflowError
| OutOfModel.        (* Python continues with a value the model does not represent *)

Inductive result (A : Type) : Type :=
| Ok (a : A)
| Raise (e : exn).
Arguments Ok {A} a.
Arguments Raise {A} e.

Definition bind {A B : Type} (m : result A) (k : A -> result B) : result B :=
  match m with
  | Ok a => k a
  | Raise e => Raise e
  end.

Notation "x <- m ;; k" := (bind m (fun x => k))
  (at level 61, m at next level, right associativity).
Notation "' pat <- m ;; k" := (bind m (fun x => match x with pat => k end))
  (at level 61, pat pattern, m at next level, right associativity).

(** ** decimal.Decimal *)

Record Decimal : Type := mkDec { coef : Z; expo : Z }.

(** [prec] of the default context. *)
Definition prec_limit : Z := 10 ^ 28.

Definition fits_context (c : Z) : bool := Z.abs c <? prec_limit.

(** The two operands brought to the smaller exponent. *)
Definition align (x y : Decimal) : Z * Z * Z :=
  let e := Z.min (expo x) (expo y) in
  (coef x * 10 ^ (expo x - e), coef y * 10 ^ (expo y - e), e).

Definition dcompare (x y : Decimal) : comparison :=
  let '(a, b, _) := align x y in a ?= b.

Definition dlt (x y : Decimal) : bool :=
  match dcompare x y with Lt => true | _ => false end.
Definition dle (x y : Decimal) : bool :=
  match dcompare x y with Gt => false | _ => true end.
Definition deqb (x y : Decimal) : bool :=
  match dcompare x y with Eq => true | _ => false end.
Definition dgt (x y : Decimal) : bool := dlt y x.
Definition dge (x y : Decimal) : bool := dle y x.

(** [bool(d)] *)
Definition dtruthy (x : Decimal) : bool := negb (coef x =? 0).

Definition checked (c e : Z) : result Decimal :=
  if fits_context c then Ok (mkDec c e) else Raise OutOfModel.

(** [x + y] *)
Definition dadd (x y : Decimal) : result Decimal :=
  let '(a, b, e) := align x y in checked (a + b) e.

(** [x - y] *)
Definition dsub (x y : Decimal) : result Decimal :=
  let '(a, b, e) := align x y in checked (a - b) e.

(** [x * y] *)
Definition dmul (x y : Decimal) : result Decimal :=
  checked (coef x * coef y) (expo x + expo y).

(** [x / Decimal("100")]: the quotient is exact, and Python moves the
    exponent back towards the dividend's as far as trailing zeros allow. *)
Definition ddiv100 (x : Decimal) : result Decimal :=
  if fits_context (coef x) then
    if coef x mod 100 =? 0 then Ok (mkDec (coef x / 100) (expo x))
    else if coef x mod 10 =? 0 then Ok (mkDec (coef x / 10) (expo x - 1))
    else Ok (mkDec (coef x) (expo x - 2))
  else Raise OutOfModel.

(** Division of a nonnegative [a] by a positive [b], a half rounding up. *)
Definition div_half_up (a b : Z) : Z :=
  let q := a / b in
  if b <=? 2 * (a mod b) then q + 1 else q.

(** The number of cents nearest to [x], ties away from zero
    ([ROUND_HALF_UP]). *)
Definition cents_half_up (x : Decimal) : Z :=
  if -2 <=? expo x then coef x * 10 ^ (expo x + 2)
  else Z.sgn (coef x) * div_half_up (Z.abs (coef x)) (10 ^ (- 2 - expo x)).

(** [value.quantize(Decimal("0.01"), rounding=ROUND_HALF_UP)] *)
Definition _round_currency (value : Decimal) : result Decimal :=
  let c := cents_half_up value in
  if fits_context c then Ok (mkDec c (-2)) else Raise InvalidOperation.

(** [int(d)]: truncation towards zero. *)
Definition dec_to_int (x : Decimal) : Z :=
  if 0 <=? expo x then coef x * 10 ^ expo x
  else Z.quot (coef x) (10 ^ (- expo x)).

Definition dec_of_Z (z : Z) : Decimal := mkDec z 0.

(** ** float: IEEE-754 binary64 *)

(** [FFin m e] is the number [m * 2^e]. *)
Inductive pyfloat : Type :=
| FFin (m e : Z)
| FInf (neg : bool).

(** Division of a nonnegative [a] by a positive [b], to nearest, a half
    going to the even quotient. *)
Definition div_half_even (a b : Z) : Z :=
  let q := a / b in
  match 2 * (a mod b) ?= b with
  | Lt => q
  | Gt => q + 1
  | Eq => if Z.even q then q else q + 1
  end.

(** The binade of [n / d]: the [k] with [2^k <= n/d < 2^(k+1)]. *)
Definition binade (n d : Z) : Z :=
  let k := Z.log2 n - Z.log2 d in
  let above := if 0 <=? k then d * 2 ^ k <=? n else d <=? n * 2 ^ (- k) in
  if above then k else k - 1.

(** The double nearest to the positive rational [n / d]: 53 significant
    bits, subnormals below [2^-1022], overflow to infinity. *)
Definition round_pos (n d : Z) : pyfloat :=
  let q := Z.max (binade n d - 52) (-1074) in
  let m := if 0 <=? q then div_half_even n (d * 2 ^ q)
           else div_half_even (n * 2 ^ (- q)) d in
  if (971 <? q) || ((q =? 971) && (2 ^ 53 <=? m)) then FInf false
  else FFin m q.

Definition fneg (f : pyfloat) : pyfloat :=
  match f with
  | FFin m e => FFin (- m) e
  | FInf neg => FInf (negb neg)
  end.

Definition float_of_ratio (n d : Z) : pyfloat :=
  match n ?= 0 with
  | Eq => FFin 0 0
  | Gt => round_pos n d
  | Lt => fneg (round_pos (- n) d)
  end.

(** [float(d)] for a Decimal [d]: the correctly rounded double. *)
Definition float_of_decimal (x : Decimal) : pyfloat :=
  if 0 <=? expo x then float_of_ratio (coef x * 10 ^ expo x) 1
  else float_of_ratio (coef x) (10 ^ (- expo x)).

(** [float(z)] for an int [z]. *)
Definition float_of_Z (z : Z) : result pyfloat :=
  match float_of_ratio z 1 with
  | FInf _ => Raise OverflowError
  | f => Ok f
  end.

Definition fcompare (x y : pyfloat) : comparison :=
  match x, y with
  | FFin m1 e1, FFin m2 e2 =>
      let e := Z.min e1 e2 in m1 * 2 ^ (e1 - e) ?= m2 * 2 ^ (e2 - e)
  | FInf true, FInf true => Eq
  | FInf false, FInf false => Eq
  | FInf true, _ => Lt
  | _, FInf true => Gt
  | FInf false, _ => Gt
  | _, FInf false => Lt
  end.

Definition flt (x y : pyfloat) : bool :=
  match fcompare x y with Lt => true | _ => false end.
Definition feqb (x y : pyfloat) : bool :=
  match fcompare x y with Eq => true | _ => false end.

(** [int(f)] *)
Definition float_to_int (f : pyfloat) : result Z :=
  match f with
  | FFin m e => Ok (if 0 <=? e then m * 2 ^ e else Z.quot m (2 ^ (- e)))
  | FInf _ => Raise OverflowError
  end.

(** *** repr(float): the shortest decimal string that reads back *)

Fixpoint count_digits (fuel : nat) (z : Z) : Z :=
  match fuel with
  | O => 0
  | S fuel' => if z <=? 0 then 0 else 1 + count_digits fuel' (z / 10)
  end.

(** Number of decimal digits of a positive integer. *)
Definition ndigits (z : Z) : Z := count_digits (S (Z.to_nat (Z.log2 z))) z.

Fixpoint leading_zeros (fuel : nat) (n d : Z) : Z :=
  match fuel with
  | O => 0
  | S fuel' => if d <=? n then 0 else 1 + leading_zeros fuel' (n * 10) d
  end.

(** The position [p] of the decimal point of [n / d]:
    [10^(p-1) <= n/d < 10^p]. *)
Definition decimal_point (n d : Z) : Z :=
  if d <=? n then ndigits (n / d)
  else - leading_zeros (S (Z.to_nat (Z.log2 d))) (n * 10) d.

Fixpoint strip_zeros (fuel : nat) (c e : Z) : Z * Z :=
  match fuel with
  | O => (c, e)
  | S fuel' =>
      if (c =? 0) || negb (c mod 10 =? 0) then (c, e)
      else strip_zeros fuel' (c / 10) (e + 1)
  end.

(** The candidates with [k] significant digits around [n / d], the closer
    one first (of two equally close, the even one). *)
Definition candidates_at (n d p k : Z) : list Decimal :=
  let s := p - k in
  let num := if 0 <=? s then n else n * 10 ^ (- s) in
  let den := if 0 <=? s then d * 10 ^ s else d in
  let lo := num / den in
  let lo_first := match 2 * (num mod den) ?= den with
                  | Lt => true
                  | Gt => false
                  | Eq => Z.even lo
                  end in
  if lo_first
  then [mkDec lo s; mkDec (lo + 1) s]
  else [mkDec (lo + 1) s; mkDec lo s].

Fixpoint shortest_digits (fuel : nat) (k : Z) (f : pyfloat) (n d p : Z)
  : option Decimal :=
  match fuel with
  | O => None
  | S fuel' =>
      match find (fun c => feqb (float_of_decimal c) f) (candidates_at n d p k) with
      | Some c => Some c
      | None => shortest_digits fuel' (k + 1) f n d p
      end
  end.

(** The exact decimal expansion of a double. *)
Definition exact_decimal (m e : Z) : Decimal :=
  if 0 <=? e then mkDec (m * 2 ^ e) 0 else mkDec (m * 5 ^ (- e)) e.

(** The digits and exponent Python prints for a positive double. *)
Definition repr_pos (m e : Z) : Decimal :=
  let n := if 0 <=? e then m * 2 ^ e else m in
  let d := if 0 <=? e then 1 else 2 ^ (- e) in
  let p := decimal_point n d in
  let c := match shortest_digits 17 1 (FFin m e) n d p with
           | Some c => c
           | None => exact_decimal m e
           end in
  let '(digits, s) := strip_zeros 400 (coef c) (expo c) in
  let nd := ndigits digits in
  let decpt := s + nd in
  (* fixed notation for -4 < decpt <= 16, with ".0" after an integer *)
  if (-4 <? decpt) && (decpt <=? 16) && (0 <=? s)
  then mkDec (digits * 10 ^ (s + 1)) (-1)
  else mkDec digits s.

(** [Decimal(str(f))] *)
Definition decimal_of_float (f : pyfloat) : result Decimal :=
  match f with
  | FFin m e =>
      match m ?= 0 with
      | Eq => Ok (mkDec 0 (-1))
      | Gt => Ok (repr_pos m e)
      | Lt => let r := repr_pos (- m) e in Ok (mkDec (- coef r) (expo r))
      end
  | FInf _ => Raise OutOfModel
  end.

(** ** Numeric literals in strings *)

Definition code (c : ascii) : Z := Z.of_N (N_of_ascii c).

(** ASCII characters that [str.strip()] removes. *)
Definition is_space (c : ascii) : bool :=
  let n := code c in
  ((9 <=? n) && (n <=? 13)) || ((28 <=? n) && (n <=? 32)).

Definition is_digit (c : ascii) : bool :=
  (48 <=? code c) && (code c <=? 57).

Definition is_underscore (c : ascii) : bool := code c =? 95.

Definition lower (c : ascii) : ascii :=
  if (65 <=? code c) && (code c <=? 90)
  then ascii_of_N (N_of_ascii c + 32) else c.

Fixpoint lstrip (s : string) : string :=
  match s with
  | String c s' => if is_space c then lstrip s' else s
  | EmptyString => EmptyString
  end.

Fixpoint rstrip (s : string) : string :=
  match s with
  | EmptyString => EmptyString
  | String c s' =>
      match rstrip s' with
      | EmptyString => if is_space c then EmptyString else String c EmptyString
      | r => String c r
      end
  end.

Definition strip (s : string) : string := lstrip (rstrip s).

Fixpoint string_filter (p : ascii -> bool) (s : string) : string :=
  match s with
  | EmptyString => EmptyString
  | String c s' => if p c then String c (string_filter p s') else string_filter p s'
  end.

Fixpoint string_exists (p : ascii -> bool) (s : string) : bool :=
  match s with
  | EmptyString => false
  | String c s' => p c || string_exists p s'
  end.

Fixpoint string_map (f : ascii -> ascii) (s : string) : string :=
  match s with
  | EmptyString => EmptyString
  | String c s' => String (f c) (string_map f s')
  end.

Definition is_empty (s : string) : bool :=
  match s with EmptyString => true | _ => false end.

(** The digits at the head of [s], accumulated into [acc]; their number is
    added to [cnt]. *)
Fixpoint span_digits (s : string) (acc cnt : Z) : Z * Z * string :=
  match s with
  | String c s' =>
      if is_digit c then span_digits s' (10 * acc + (code c - 48)) (cnt + 1)
      else (acc, cnt, s)
  | EmptyString => (acc, cnt, s)
  end.

Definition take_sign (s : string) : bool * string :=
  match s with
  | String c s' =>
      if code c =? 45 then (true, s')
      else if code c =? 43 then (false, s')
      else (false, s)
  | EmptyString => (false, s)
  end.

Definition signed (neg : bool) (z : Z) : Z := if neg then - z else z.

(** [Inf], [Infinity], [NaN] and [sNaN] with an optional payload, in any
    letter case. *)
Definition is_special (s : string) : bool :=
  let t := string_map lower s in
  let all_digits u := negb (string_exists (fun c => negb (is_digit c)) u) in
  (t =? "inf")%string || (t =? "infinity")%string
  || ((substring 0 3 t =? "nan")%string
      && all_digits (substring 3 (String.length t) t))
  || ((substring 0 4 t =? "snan")%string
      && all_digits (substring 4 (String.length t) t)).

Inductive literal : Type :=
| LitFinite (c e : Z)
| LitSpecial
| LitInvalid.

(** The numeric-string grammar of [decimal.Decimal]:
    sign? (digits (. digits? )? | . digits) (E sign? digits)? *)
Definition parse_literal (s : string) : literal :=
  let '(neg, s1) := take_sign s in
  if is_special s1 then LitSpecial else
  let '(iv, ic, s2) := span_digits s1 0 0 in
  let '(cv, tc, s3) :=
    match s2 with
    | String c s2' => if code c =? 46 then span_digits s2' iv ic else (iv, ic, s2)
    | EmptyString => (iv, ic, s2)
    end in
  if tc =? 0 then LitInvalid else
  match s3 with
  | EmptyString => LitFinite (signed neg cv) (ic - tc)
  | String c s4 =>
      if (code c =? 101) || (code c =? 69) then
        let '(eneg, s5) := take_sign s4 in
        let '(ev, ec, s6) := span_digits s5 0 0 in
        if (0 <? ec) && is_empty s6
        then LitFinite (signed neg cv) (signed eneg ev + (ic - tc))
        else LitInvalid
      else LitInvalid
  end.

(** [Decimal(s)] *)
Definition decimal_of_string (s : string) : result Decimal :=
  match parse_literal (string_filter (fun c => negb (is_underscore c)) (strip s)) with
  | LitFinite c e => Ok (mkDec c e)
  | LitSpecial => Raise OutOfModel
  | LitInvalid => Raise InvalidOperation
  end.

(** [float(s)]; digit-group underscores are not modelled. *)
Definition float_of_string (s : string) : result pyfloat :=
  let t := strip s in
  if string_exists is_underscore t then Raise OutOfModel else
  match parse_literal t with
  | LitFinite c e => Ok (float_of_decimal (mkDec c e))
  | LitSpecial => Raise OutOfModel
  | LitInvalid => Raise ValueError
  end.

(** [int(s)]; digit-group underscores are not modelled. *)
Definition int_of_string (s : string) : result Z :=
  let t := strip s in
  if string_exists is_underscore t then Raise OutOfModel else
  let '(neg, s1) := take_sign t in
  let '(v, cnt, rest) := span_digits s1 0 0 in
  if (0 <? cnt) && is_empty rest then Ok (signed neg v) else Raise ValueError.

(** ** JSON values *)

#[local] Set Warnings "-register-all".

Inductive value : Type :=
| VNone
| VBool (b : bool)
| VInt (z : Z)
| VFloat (f : pyfloat)
| VStr (s : string)
| VList (l : list value)
| VDict (d : list (string * value)).

Definition dict : Type := list (string * value).

Fixpoint lookup (k : string) (d : dict) : option value :=
  match d with
  | [] => None
  | (k', v) :: d' => if (k =? k')%string then Some v else lookup k d'
  end.

(** [k in d] *)
Definition has_key (k : string) (d : dict) : bool :=
  match lookup k d with Some _ => true | None => false end.

(** [d.get(k)] *)
Definition dict_get (d : dict) (k : string) : value :=
  match lookup k d with Some v => v | None => VNone end.

(** [d.get(k, default)] *)
Definition dict_get_default (d : dict) (k : string) (default : value) : value :=
  match lookup k d with Some v => v | None => default end.

Definition is_none (v : value) : bool :=
  match v with VNone => true | _ => false end.

Definition int_of_bool (b : bool) : Z := if b then 1 else 0.

(** Python's [==] on JSON values: None, strings, lists and objects compare
    within their kind; bool, int and float compare by numeric value. *)
Fixpoint py_eq (x y : value) {struct x} : bool :=
  match x, y with
  | VNone, VNone => true
  | VBool a, VBool b => Bool.eqb a b
  | VBool a, VInt b => int_of_bool a =? b
  | VBool a, VFloat b => feqb (FFin (int_of_bool a) 0) b
  | VInt a, VBool b => a =? int_of_bool b
  | VInt a, VInt b => a =? b
  | VInt a, VFloat b => feqb (FFin a 0) b
  | VFloat a, VBool b => feqb a (FFin (int_of_bool b) 0)
  | VFloat a, VInt b => feqb a (FFin b 0)
  | VFloat a, VFloat b => feqb a b
  | VStr a, VStr b => (a =? b)%string
  | VList a, VList b =>
      (fix eq_list (l : list value) (r : list value) {struct l} : bool :=
         match l, r with
         | [], [] => true
         | u :: l', v :: r' => py_eq u v && eq_list l' r'
         | _, _ => false
         end) a b
  | VDict a, VDict b =>
      (List.length a =? List.length b)%nat &&
      (fix eq_entries (l : list (string * value)) {struct l} : bool :=
         match l with
         | [] => true
         | (k, u) :: l' =>
             match lookup k b with
             | Some v => py_eq u v && eq_entries l'
             | None => false
             end
         end) a
  | _, _ => false
  end.

(** [Decimal(str(v))] *)
Definition decimal_of_value (v : value) : result Decimal :=
  match v with
  | VInt z => Ok (dec_of_Z z)
  | VFloat f => decimal_of_float f
  | VStr s => decimal_of_string s
  | VNone | VBool _ | VList _ | VDict _ => Raise InvalidOperation
  end.

(** [int(v)] *)
Definition int_of_value (v : value) : result Z :=
  match v with
  | VBool b => Ok (int_of_bool b)
  | VInt z => Ok z
  | VFloat f => float_to_int f
  | VStr s => int_of_string s
  | VNone | VList _ | VDict _ => Raise TypeError
  end.

(** [float(v)] *)
Definition float_of_value (v : value) : result pyfloat :=
  match v with
  | VBool b => Ok (FFin (int_of_bool b) 0)
  | VInt z => float_of_Z z
  | VFloat f => Ok f
  | VStr s => float_of_string s
  | VNone | VList _ | VDict _ => Raise TypeError
  end.

(** [d.get(k)] where the key [k] is itself a JSON value: the keys of [d]
    are strings, lists and objects are unhashable. *)
Definition dict_get_value (d : dict) (k : value) : result value :=
  match k with
  | VStr s => Ok (dict_get d s)
  | VList _ | VDict _ => Raise TypeError
  | VNone | VBool _ | VInt _ | VFloat _ => Ok VNone
  end.

(** What [for x in v] enumerates. *)
Fixpoint chars (s : string) : list value :=
  match s with
  | EmptyString => []
  | String c s' => VStr (String c EmptyString) :: chars s'
  end.

Definition iterate (v : value) : result (list value) :=
  match v with
  | VList l => Ok l
  | VStr s => Ok (chars s)
  | VDict d => Ok (map (fun kv => VStr (fst kv)) d)
  | VNone | VBool _ | VInt _ | VFloat _ => Raise TypeError
  end.

(** ** Rows: app/models.py *)

(** [Product.base_price] is a [Numeric(12, 2)] column: the ORM hands it
    over as a Decimal. *)
Record Product : Type := mkProduct {
  product_id : Z;
  product_name : string;
  base_price : Decimal
}.

(** [condition] and [parameters] are nullable JSON objects. *)
Record Rule : Type := mkRule {
  rule_id : Z;
  rule_name : string;
  rule_type : string;
  condition : option dict;
  parameters : option dict;
  is_active : bool;
  priority : Z
}.

Record AppliedRule : Type := mkApplied {
  applied_id : Z;
  applied_name : string;
  applied_rule_type : string;
  amount : pyfloat;
  details : dict
}.

(** [_to_decimal(value)] is [Decimal(str(value))]; its only argument in the
    engine is [product.base_price], a Decimal, which [str] prints and
    [Decimal] reads back unchanged. *)
Definition _to_decimal (value : Decimal) : Decimal := value.

(** ** The rule store: [load_active_rules] *)

(** [ORDER BY priority ASC, id ASC] *)
Definition rule_le (a b : Rule) : bool :=
  (priority a <? priority b)
  || ((priority a =? priority b) && (rule_id a <=? rule_id b)).

Fixpoint insert_rule (r : Rule) (l : list Rule) : list Rule :=
  match l with
  | [] => [r]
  | x :: xs => if rule_le r x then r :: l else x :: insert_rule r xs
  end.

Definition sort_rules (l : list Rule) : list Rule := fold_right insert_rule [] l.

(** The argument is the content of the [rules] table. *)
Definition load_active_rules (db : list Rule) : list Rule :=
  sort_rules (filter is_active db).

(** [x or {}] for a nullable JSON object. *)
Definition or_empty (d : option dict) : dict :=
  match d with Some d' => d' | None => [] end.

(** ** [PricingEngine._matches_condition] *)

(** The loop over [attr_conds.items()]. *)
Fixpoint attributes_match (attributes : dict) (attr_conds : dict) : bool :=
  match attr_conds with
  | [] => true
  | (k, expected) :: rest =>
      if negb (py_eq (dict_get attributes k) expected) then false
      else attributes_match attributes rest
  end.

Definition _matches_condition (rule : Rule)
    (product_id : option Z) (attributes : option dict)
    (quantity : option Z) (order_total : option pyfloat) : result bool :=
  let cond := or_empty (condition rule) in
  let check_product :=
    match product_id, lookup "product_id" cond with
    | Some pid, Some v => negb (py_eq v (VInt pid))
    | _, _ => false
    end in
  if check_product then Ok false else
  fail_qty <-
    match quantity, lookup "min_qty" cond with
    | Some q, Some v => (m <- int_of_value v ;; Ok (q <? m))
    | _, _ => Ok false
    end ;;
  if fail_qty then Ok false else
  fail_total <-
    match order_total, lookup "min_order_total" cond with
    | Some t, Some v => (m <- float_of_value v ;; Ok (flt t m))
    | _, _ => Ok false
    end ;;
  if fail_total then Ok false else
  match attributes with
  | Some attrs =>
      match dict_get_default cond "attributes" (VDict []) with
      | VDict attr_conds => Ok (attributes_match attrs attr_conds)
      | _ => Raise AttributeError
      end
  | None => Ok true
  end.

(** ** [PricingEngine.compute_config_adjustments] *)

(** One turn of the loop over the active rules: [None] when the rule is
    passed over ([continue]), else its rounded increment and its record. *)
Definition config_rule (product : Product) (attributes : dict) (rule : Rule)
  : result (option (Decimal * AppliedRule)) :=
  if negb (rule_type rule =? "config_adjustment")%string then Ok None else
  matched <- _matches_condition rule (Some (product_id product)) (Some attributes) None None ;;
  if negb matched then Ok None else
  let params := or_empty (parameters rule) in
  let attribute_key := dict_get params "attribute" in
  let attribute_value_expected := dict_get params "equals" in
  if is_none attribute_key then Ok None else
  skip <-
    (if negb (is_none attribute_value_expected) then
       actual <- dict_get_value attributes attribute_key ;;
       Ok (negb (py_eq actual attribute_value_expected))
     else Ok false) ;;
  if skip then Ok None else
  amount_ <- decimal_of_value (dict_get_default params "amount" (VInt 0)) ;;
  percentage <- decimal_of_value (dict_get_default params "percentage" (VInt 0)) ;;
  increment <-
    (if dtruthy percentage then
       rate <- ddiv100 percentage ;;
       part <- dmul (_to_decimal (base_price product)) rate ;;
       dadd amount_ part
     else Ok amount_) ;;
  increment <- _round_currency increment ;;
  Ok (Some (increment,
            mkApplied (rule_id rule) (rule_name rule) (rule_type rule)
              (float_of_decimal increment)
              [("attribute", attribute_key);
               ("percentage", VFloat (float_of_decimal percentage));
               ("amount", VFloat (float_of_decimal amount_))]%string)).

(** The loop, carrying [total_adjustment] and [applied]. *)
Fixpoint config_loop (product : Product) (attributes : dict) (rules : list Rule)
    (total_adjustment : Decimal) (applied : list AppliedRule)
  : result (Decimal * list AppliedRule) :=
  match rules with
  | [] => Ok (total_adjustment, applied)
  | rule :: rest =>
      fired <- config_rule product attributes rule ;;
      match fired with
      | None => config_loop product attributes rest total_adjustment applied
      | Some (increment, record) =>
          total <- dadd total_adjustment increment ;;
          config_loop product attributes rest total (applied ++ [record])
      end
  end.

Definition compute_config_adjustments (db : list Rule) (product : Product)
    (attributes : dict) : result (Decimal * list AppliedRule) :=
  '(total_adjustment, applied) <-
     config_loop product attributes (load_active_rules db) (dec_of_Z 0) [] ;;
  total <- _round_currency total_adjustment ;;
  Ok (total, applied).

(** ** [PricingEngine.compute_discounts] *)

(** One turn of the loop over [tiers]. *)
Definition tier_step (quantity : Z) (best_percent : Decimal) (tier : value)
  : result Decimal :=
  match tier with
  | VDict t =>
      min_qty <- int_of_value (dict_get_default t "min_qty" (VInt 0)) ;;
      percent_off <- decimal_of_value (dict_get_default t "percent_off" (VInt 0)) ;;
      Ok (if (min_qty <=? quantity) && dgt percent_off best_percent
          then percent_off else best_percent)
  | _ => Raise AttributeError
  end.

Fixpoint scan_tiers (quantity : Z) (tiers : list value) (best_percent : Decimal)
  : result Decimal :=
  match tiers with
  | [] => Ok best_percent
  | tier :: rest =>
      best <- tier_step quantity best_percent tier ;;
      scan_tiers quantity rest best
  end.

Definition order_discount_candidate (rule : Rule) (params : dict)
    (subtotal : Decimal) : result (option AppliedRule) :=
  min_total <- decimal_of_value (dict_get_default params "min_total" (VInt 0)) ;;
  if dlt subtotal min_total then Ok None else
  percentage <- decimal_of_value (dict_get_default params "percentage" (VInt 0)) ;;
  amount_ <- decimal_of_value (dict_get_default params "amount" (VInt 0)) ;;
  discount_value <-
    (if dtruthy percentage then
       rate <- ddiv100 percentage ;;
       part <- dmul subtotal rate ;;
       dadd amount_ part
     else Ok amount_) ;;
  discount_value <- _round_currency discount_value ;;
  if dgt discount_value (dec_of_Z 0) then
    Ok (Some (mkApplied (rule_id rule) (rule_name rule) (rule_type rule)
                (float_of_decimal discount_value)
                [("percentage", VFloat (float_of_decimal percentage));
                 ("amount", VFloat (float_of_decimal amount_))]%string))
  else Ok None.

Definition tiered_discount_candidate (rule : Rule) (params : dict)
    (quantity : Z) (subtotal : Decimal) : result (option AppliedRule) :=
  tiers <- iterate (dict_get_default params "tiers" (VList [])) ;;
  best_percent <- scan_tiers quantity tiers (dec_of_Z 0) ;;
  if dgt best_percent (dec_of_Z 0) then
    rate <- ddiv100 best_percent ;;
    part <- dmul subtotal rate ;;
    discount_value <- _round_currency part ;;
    Ok (Some (mkApplied (rule_id rule) (rule_name rule) (rule_type rule)
                (float_of_decimal discount_value)
                [("applied_percent", VFloat (float_of_decimal best_percent))]%string))
  else Ok None.

(** One turn of the loop over the active rules: the candidate the rule
    appends, if any. *)
Definition discount_rule (product : Product) (quantity : Z) (subtotal : Decimal)
    (attributes : dict) (rule : Rule) : result (option AppliedRule) :=
  if negb ((rule_type rule =? "order_discount")%string
           || (rule_type rule =? "tiered_discount")%string) then Ok None else
  matched <- _matches_condition rule (Some (product_id product)) (Some attributes)
               (Some quantity) (Some (float_of_decimal subtotal)) ;;
  if negb matched then Ok None else
  let params := or_empty (parameters rule) in
  if (rule_type rule =? "order_discount")%string
  then order_discount_candidate rule params subtotal
  else tiered_discount_candidate rule params quantity subtotal.

Fixpoint discount_candidates (product : Product) (quantity : Z) (subtotal : Decimal)
    (attributes : dict) (rules : list Rule) : result (list AppliedRule) :=
  match rules with
  | [] => Ok []
  | rule :: rest =>
      c <- discount_rule product quantity subtotal attributes rule ;;
      cs <- discount_candidates product quantity subtotal attributes rest ;;
      Ok (match c with Some a => a :: cs | None => cs end)
  end.

(** The key of the final [max]: [Decimal(str(r.amount))]. *)
Definition amount_key (r : AppliedRule) : result Decimal :=
  decimal_of_float (amount r).

Fixpoint keyed (cs : list AppliedRule) : result (list (Decimal * AppliedRule)) :=
  match cs with
  | [] => Ok []
  | c :: rest =>
      k <- amount_key c ;;
      ks <- keyed rest ;;
      Ok ((k, c) :: ks)
  end.

(** Python's [max(items, key=...)]: the running maximum is replaced only
    by a strictly larger key, so the first of several largest items wins. *)
Fixpoint max_from (best : Decimal * AppliedRule) (items : list (Decimal * AppliedRule))
  : Decimal * AppliedRule :=
  match items with
  | [] => best
  | item :: rest => max_from (if dgt (fst item) (fst best) then item else best) rest
  end.

(** [max(candidates, key=lambda r: Decimal(str(r.amount)))] on a list that
    is not empty. *)
Definition pick_best (first : AppliedRule) (rest : list AppliedRule)
  : result (Decimal * AppliedRule) :=
  k <- amount_key first ;;
  ks <- keyed rest ;;
  Ok (max_from (k, first) ks).

(** The choice among the candidates, after the loop. *)
Definition select_discount (candidates : list AppliedRule)
  : result (Decimal * list AppliedRule) :=
  match candidates with
  | [] => Ok (dec_of_Z 0, [])
  | first :: rest =>
      best <- pick_best first rest ;;
      discount <- _round_currency (fst best) ;;
      Ok (discount, [snd best])
  end.

Definition compute_discounts (db : list Rule) (product : Product) (quantity : Z)
    (subtotal : Decimal) (attributes : dict) : result (Decimal * list AppliedRule) :=
  candidates <- discount_candidates product quantity subtotal attributes
                  (load_active_rules db) ;;
  select_discount candidates.

(** ** [PricingEngine.approval_status] *)

Inductive approval : Type := manager_required | auto_approved.

(** The loop that looks for a threshold, leaving at the first one found. *)
Fixpoint find_threshold (rules : list Rule) (threshold : Decimal) : result Decimal :=
  match rules with
  | [] => Ok threshold
  | rule :: rest =>
      match (rule_type rule =? "approval_threshold")%string, parameters rule with
      | true, Some ((_ :: _) as params) =>
          let thr := dict_get params "threshold" in
          if is_none thr then find_threshold rest threshold
          else decimal_of_value thr
      | _, _ => find_threshold rest threshold
      end
  end.

Definition approval_status (db : list Rule) (final_total : Decimal)
  : result (approval * Z) :=
  threshold <- find_threshold (load_active_rules db) (dec_of_Z 10000) ;;
  if dge final_total threshold
  then Ok (manager_required, dec_to_int threshold)
  else Ok (auto_approved, dec_to_int threshold).

(** ** The [/quote] handler: app/main.py, app/schemas.py *)

Record QuoteRequest : Type := mkRequest {
  req_product_id : Z;
  req_quantity : Z;
  req_attributes : dict
}.

Record PriceBreakdown : Type := mkBreakdown {
  bd_subtotal : pyfloat;
  bd_adjustments_total : pyfloat;
  bd_discount_total : pyfloat;
  bd_final_total : pyfloat;
  bd_applied_rules : list AppliedRule
}.

(** The row added to the [quotes] table. *)
Record Quote : Type := mkQuote {
  q_product_id : Z;
  q_quantity : Z;
  q_attributes : dict;
  subtotal : Decimal;
  adjustments_total : Decimal;
  discount_total : Decimal;
  final_total : Decimal;
  q_approval_status : approval;
  breakdown : PriceBreakdown
}.

Inductive http_result (A : Type) : Type :=
| Response (a : A)
| HTTP422                 (* the request fails validation *)
| HTTP404                 (* "Product not found" *)
| Failure (e : exn).      (* an exception leaves the handler *)
Arguments Response {A} a.
Arguments HTTP422 {A}.
Arguments HTTP404 {A}.
Arguments Failure {A} e.

Definition handler {A : Type} (r : result A) : http_result A :=
  match r with Ok a => Response a | Raise e => Failure e end.

(** [db.query(Product).filter(Product.id == pid).first()] *)
Definition find_product (products : list Product) (pid : Z) : option Product :=
  find (fun p => product_id p =? pid) products.

Definition quote (products : list Product) (db : list Rule) (req : QuoteRequest)
  : http_result Quote :=
  if req_quantity req <? 1 then HTTP422 else
  match find_product products (req_product_id req) with
  | None => HTTP404
  | Some product =>
      handler (
        '(adjustments, applied_config_rules) <-
           compute_config_adjustments db product (req_attributes req) ;;
        gross <- dmul (base_price product) (dec_of_Z (req_quantity req)) ;;
        subtotal_ <- dadd gross adjustments ;;
        '(discount, applied_discount_rules) <-
           compute_discounts db product (req_quantity req) subtotal_ (req_attributes req) ;;
        final_total_ <- dsub subtotal_ discount ;;
        '(approval_, threshold) <- approval_status db final_total_ ;;
        Ok (mkQuote (product_id product) (req_quantity req) (req_attributes req)
              subtotal_ adjustments discount final_total_ approval_
              (mkBreakdown (float_of_decimal subtotal_) (float_of_decimal adjustments)
                 (float_of_decimal discount) (float_of_decimal final_total_)
                 (applied_config_rules ++ applied_discount_rules))))
  end.

(** ** The test fixture of tests/test_app.py *)

Module Fixture.
Local Open Scope string_scope.

Definition widget : Product := mkProduct 1 "Widget" (mkDec 10000 (-2)).

Definition red_markup : Rule :=
  mkRule 1 "Red color markup" "config_adjustment"
    (Some [("product_id", VInt 1)])
    (Some [("attribute", VStr "color"); ("equals", VStr "red"); ("amount", VInt 10)])
    true 10.

Definition high_value : Rule :=
  mkRule 2 "High value discount" "order_discount"
    (Some [("product_id", VInt 1); ("min_order_total", VInt 5000)])
    (Some [("percentage", VInt 10)])
    true 20.

Definition volume_tier : Rule :=
  mkRule 3 "Volume tier" "tiered_discount"
    (Some [("product_id", VInt 1)])
    (Some [("tiers", VList [VDict [("min_qty", VInt 10); ("percent_off", VInt 5)];
                            VDict [("min_qty", VInt 50); ("percent_off", VInt 12)]])])
    true 30.

Definition threshold_rule : Rule :=
  mkRule 4 "Approval threshold" "approval_threshold"
    (Some [("product_id", VInt 1)])
    (Some [("threshold", VInt 10000)])
    true 5.

Definition rules : list Rule := [red_markup; high_value; volume_tier; threshold_rule].

Definition red : dict := [("color", VStr "red")].
End Fixture.


(** ** The meaning of the data, for the statements *)

(** The rational number a Decimal stands for. *)
Definition dQ (x : Decimal) : Q := (inject_Z (coef x) * 10 ^ expo x)%Q.

(** [r] is [x] rounded to the nearest cent, a half going away from zero. *)
Definition rounds_half_up (x r : Decimal) : Prop :=
  expo r = -2 /\
  (Qabs (dQ r - dQ x) <= 1 # 200)%Q /\
  (Qabs (dQ r - dQ x) == 1 # 200 -> Qabs (dQ x) < Qabs (dQ r))%Q.

(** A rule that carries an approval threshold: its type is
    [approval_threshold] and [parameters.threshold] is present. *)
Definition has_threshold (r : Rule) : bool :=
  (rule_type r =? "approval_threshold")%string
  && negb (is_none (dict_get (or_empty (parameters r)) "threshold")).

(** The threshold in force: that of the first rule, in priority order,
    that carries one; 10000 when there is none. *)
Definition threshold_used (db : list Rule) : result Decimal :=
  match find has_threshold (load_active_rules db) with
  | Some r => decimal_of_value (dict_get (or_empty (parameters r)) "threshold")
  | None => Ok (dec_of_Z 10000)
  end.

(** The same rule under another condition. *)
Definition set_condition (c : option dict) (r : Rule) : Rule :=
  mkRule (rule_id r) (rule_name r) (rule_type r) c (parameters r)
    (is_active r) (priority r).

(** What a condition asks of a context: every check whose key the
    condition has and whose value the context supplies must pass.  The
    attribute check compares, with Python's [==], the expected value with
    what [attributes.get] returns, which is [None] for an absent key. *)
Definition condition_holds (cond : dict) (pid : option Z) (attrs : option dict)
    (qty : option Z) (total : option pyfloat) : Prop :=
  (forall p v, pid = Some p -> lookup "product_id" cond = Some v ->
     py_eq v (VInt p) = true) /\
  (forall q v, qty = Some q -> lookup "min_qty" cond = Some v ->
     exists m, int_of_value v = Ok m /\ m <= q) /\
  (forall t v, total = Some t -> lookup "min_order_total" cond = Some v ->
     exists m, float_of_value v = Ok m /\ flt t m = false) /\
  (forall a, attrs = Some a ->
     exists ac, dict_get_default cond "attributes" (VDict []) = VDict ac /\
                forall k e, In (k, e) ac -> py_eq (dict_get a k) e = true).







(** ** Inputs of the worked examples *)

Module Cases.
Local Open Scope string_scope.

(** A tier of 5 % from one unit on, without condition. *)
Definition penny_tier : Rule :=
  mkRule 7 "Five percent" "tiered_discount" None
    (Some [("tiers", VList [VDict [("min_qty", VInt 1); ("percent_off", VInt 5)]])])
    true 30.


(** A configuration rebate of 200. *)
Definition rebate : Rule :=
  mkRule 8 "Rebate" "config_adjustment" None
    (Some [("attribute", VStr "color"); ("amount", VInt (-200))])
    true 10.



(** A rule for configurations whose colour is null. *)
Definition null_color : Rule :=
  mkRule 11 "No colour" "config_adjustment"
    (Some [("attributes", VDict [("color", VNone)])])
    (Some [("attribute", VStr "size"); ("amount", VInt 1)])
    true 10.

(** A rule for configurations whose premium attribute is 1. *)
Definition premium_one : Rule :=
  mkRule 12 "Premium" "config_adjustment"
    (Some [("attributes", VDict [("premium", VInt 1)])])
    (Some [("attribute", VStr "premium"); ("amount", VInt 1)])
    true 10.




End Cases.






(** ** The other handlers of app/main.py *)

Record ConfigureRequest : Type := mkConfigureRequest {
  creq_product_id : Z;
  creq_attributes : dict
}.

Record ConfigureResponse : Type := mkConfigureResponse {
  cr_product_id : Z;
  cr_attributes : dict;
  cr_base_price : pyfloat;
  cr_adjustments : pyfloat;
  cr_message : string
}.

(** The [/configure] handler. *)
Definition configure (products : list Product) (db : list Rule) (req : ConfigureRequest)
  : http_result ConfigureResponse :=
  match find_product products (creq_product_id req) with
  | None => HTTP404
  | Some product =>
      handler (
        '(adjustments, applied_rules) <-
           compute_config_adjustments db product (creq_attributes req) ;;
        Ok (mkConfigureResponse (product_id product) (creq_attributes req)
              (float_of_decimal (base_price product))
              (float_of_decimal adjustments)
              "Configuration valid"))
  end.

Record RuleOut : Type := mkRuleOut {
  out_id : Z;
  out_name : string;
  out_rule_type : string;
  out_condition : option dict;
  out_parameters : option dict;
  out_is_active : bool;
  out_priority : Z
}.

Definition rule_out (r : Rule) : RuleOut :=
  mkRuleOut (rule_id r) (rule_name r) (rule_type r) (condition r) (parameters r)
    (is_active r) (priority r).

(** The [/rules] handler: every rule, active or not, in evaluation order. *)
Definition get_rules (db : list Rule) : list RuleOut :=
  map rule_out (sort_rules db).

(** The order of [ORDER BY priority ASC, id ASC], as a relation. *)
Definition rule_order (a b : Rule) : Prop := rule_le a b = true.

Definition is_config (r : Rule) : bool := (rule_type r =? "config_adjustment")%string.

Definition is_discount (r : Rule) : bool :=
  (rule_type r =? "order_discount")%string || (rule_type r =? "tiered_discount")%string.

Definition is_approval (r : Rule) : bool := (rule_type r =? "approval_threshold")%string.

(** A JSON value that is not a list or an object. *)
Definition scalar (v : value) : bool :=
  match v with
  | VList _ | VDict _ => false
  | _ => true
  end.

(** * Properties *)

(** ** The result monad *)

Lemma bind_Ok_inv {A B : Type} (m : result A) (k : A -> result B) (b : B) :
  bind m k = Ok b -> exists a, m = Ok a /\ k a = Ok b.
Proof.
  destruct m as [a|e]; simpl; intros H.
  - exists a. split; [reflexivity | exact H].
  - discriminate H.
Qed.

(** ** Decimals as rationals *)

Lemma pow10_Q (k : Z) : 0 <= k -> (inject_Z (10 ^ k) == 10 ^ k)%Q.
Proof. intros Hk. apply (Zpower_Qpower 10 k Hk). Qed.

Lemma ten_neq_0 : ~ (10 == 0)%Q.
Proof. intros H. discriminate H. Qed.

Lemma pow10_Q_pos (e : Z) : (0 < 10 ^ e)%Q.
Proof. apply Qpower_0_lt. reflexivity. Qed.

Lemma dQ_shift (c k e : Z) :
  0 <= k -> (inject_Z (c * 10 ^ k) * 10 ^ e == inject_Z c * 10 ^ (k + e))%Q.
Proof.
  intros Hk. rewrite inject_Z_mult, (pow10_Q k Hk).
  rewrite (Qpower_plus 10 k e ten_neq_0). ring.
Qed.

Lemma align_Q (x y : Decimal) :
  let '(a, b, e) := align x y in
  (dQ x == inject_Z a * 10 ^ e)%Q /\ (dQ y == inject_Z b * 10 ^ e)%Q.
Proof.
  unfold align, dQ. set (e := Z.min (expo x) (expo y)).
  split.
  - rewrite dQ_shift by lia. replace (expo x - e + e) with (expo x) by lia. reflexivity.
  - rewrite dQ_shift by lia. replace (expo y - e + e) with (expo y) by lia. reflexivity.
Qed.

Lemma Qcompare_scaled (a b : Z) (p : Q) :
  (0 < p)%Q -> ((inject_Z a * p ?= inject_Z b * p)%Q) = (a ?= b).
Proof.
  intros Hp. destruct (Z.compare_spec a b) as [H|H|H].
  - subst b. apply Qeq_alt. reflexivity.
  - apply Qlt_alt. apply Qmult_lt_compat_r; [exact Hp|].
    rewrite <- Zlt_Qlt. exact H.
  - apply Qgt_alt. apply Qmult_lt_compat_r; [exact Hp|].
    rewrite <- Zlt_Qlt. exact H.
Qed.

Lemma dcompare_Q (x y : Decimal) : dcompare x y = (dQ x ?= dQ y)%Q.
Proof.
  unfold dcompare. pose proof (align_Q x y) as H.
  destruct (align x y) as [[a b] e]. destruct H as [Hx Hy].
  rewrite Hx, Hy. symmetry. apply Qcompare_scaled. apply pow10_Q_pos.
Qed.

Lemma dlt_Q (x y : Decimal) : dlt x y = true <-> (dQ x < dQ y)%Q.
Proof.
  unfold dlt. rewrite dcompare_Q, Qlt_alt.
  destruct (dQ x ?= dQ y)%Q; split; intros H; congruence.
Qed.

Lemma dle_Q (x y : Decimal) : dle x y = true <-> (dQ x <= dQ y)%Q.
Proof.
  unfold dle. rewrite dcompare_Q, Qle_alt.
  destruct (dQ x ?= dQ y)%Q; split; intros H; congruence.
Qed.

Lemma deqb_Q (x y : Decimal) : deqb x y = true <-> (dQ x == dQ y)%Q.
Proof.
  unfold deqb. rewrite dcompare_Q, Qeq_alt.
  destruct (dQ x ?= dQ y)%Q; split; intros H; congruence.
Qed.

Lemma dgt_Q (x y : Decimal) : dgt x y = true <-> (dQ y < dQ x)%Q.
Proof. unfold dgt. apply dlt_Q. Qed.

Lemma dge_Q (x y : Decimal) : dge x y = true <-> (dQ y <= dQ x)%Q.
Proof. unfold dge. apply dle_Q. Qed.

Lemma dlt_false_Q (x y : Decimal) : dlt x y = false <-> (dQ y <= dQ x)%Q.
Proof.
  split; intros H.
  - apply Qnot_lt_le. intros Hlt. apply dlt_Q in Hlt. congruence.
  - destruct (dlt x y) eqn:E; [|reflexivity].
    apply dlt_Q in E. exfalso. exact (Qlt_not_le _ _ E H).
Qed.







(** ** Rounding to the cent *)

Lemma div_half_up_spec (a b : Z) :
  0 <= a -> 0 < b ->
  0 <= div_half_up a b /\
  2 * Z.abs (div_half_up a b * b - a) <= b /\
  (2 * Z.abs (div_half_up a b * b - a) = b -> a < div_half_up a b * b).
Proof.
  intros Ha Hb. unfold div_half_up.
  pose proof (Z.div_mod a b ltac:(lia)) as Hdm.
  pose proof (Z.mod_pos_bound a b Hb) as Hr.
  pose proof (Z.div_pos a b Ha Hb) as Hq.
  destruct (b <=? 2 * (a mod b)) eqn:E.
  - apply Z.leb_le in E. repeat split; nia.
  - apply Z.leb_gt in E. repeat split; nia.
Qed.

Lemma cents_gap (x : Decimal) :
  expo x < -2 ->
  let s := 10 ^ (- 2 - expo x) in
  let c := cents_half_up x in
  2 * Z.abs (c * s - coef x) <= s /\
  (2 * Z.abs (c * s - coef x) = s -> Z.abs (coef x) < Z.abs (c * s)).
Proof.
  intros He s c. unfold c, cents_half_up.
  assert (E : (-2 <=? expo x) = false) by (apply Z.leb_gt; exact He).
  rewrite E. fold s.
  assert (Hs : 0 < s) by (unfold s; apply Z.pow_pos_nonneg; lia).
  pose proof (div_half_up_spec (Z.abs (coef x)) s (Z.abs_nonneg _) Hs) as [Hq [Hgap Htie]].
  remember (div_half_up (Z.abs (coef x)) s) as q eqn:Eq. clear Eq.
  assert (Ht : 0 <= q * s) by nia.
  destruct (Z.sgn_spec (coef x)) as [[Hc ->]|[[Hc ->]|[Hc ->]]].
  - replace (1 * q * s) with (q * s) by ring.
    remember (q * s) as t eqn:Et. clear Et. lia.
  - replace (0 * q * s) with 0 by ring.
    remember (q * s) as t eqn:Et. clear Et. lia.
  - replace (Z.opp 1 * q * s) with (- (q * s)) by ring.
    remember (q * s) as t eqn:Et. clear Et. lia.
Qed.

Lemma Qabs_scaled (z : Z) (p : Q) :
  (0 < p)%Q -> (Qabs (inject_Z z * p) == inject_Z (Z.abs z) * p)%Q.
Proof.
  intros Hp. rewrite Qabs_Qmult, (Qabs_pos p) by (apply Qlt_le_weak; exact Hp).
  apply Qmult_comp; [|reflexivity].
  unfold inject_Z. symmetry. apply Zabs_Qabs.
Qed.

Lemma round_currency_inv (x r : Decimal) :
  _round_currency x = Ok r -> r = mkDec (cents_half_up x) (-2).
Proof.
  unfold _round_currency. destruct (fits_context (cents_half_up x)); intros H.
  - inversion H. reflexivity.
  - discriminate H.
Qed.

Lemma round_currency_spec (x r : Decimal) :
  _round_currency x = Ok r -> rounds_half_up x r.
Proof.
  intros H. apply round_currency_inv in H. subst r.
  unfold rounds_half_up. split; [reflexivity|].
  destruct (Z_le_gt_dec (-2) (expo x)) as [He|He].
  - assert (E : (dQ (mkDec (cents_half_up x) (-2)) == dQ x)%Q).
    { unfold cents_half_up. apply Z.leb_le in He. rewrite He. apply Z.leb_le in He.
      unfold dQ; cbn [coef expo]. rewrite dQ_shift by lia.
      replace (expo x + 2 + -2) with (expo x) by lia. reflexivity. }
    assert (E0 : (dQ (mkDec (cents_half_up x) (-2)) - dQ x == 0)%Q) by (rewrite E; ring).
    rewrite E0. split.
    + discriminate.
    + intros Habs. discriminate Habs.
  - pose proof (cents_gap x ltac:(lia)) as [Hgap Htie]. simpl in Hgap, Htie.
    set (s := 10 ^ (- 2 - expo x)) in *. set (c := cents_half_up x) in *.
    assert (Hs : 0 < s) by (unfold s; apply Z.pow_pos_nonneg; lia).
    assert (Er : (dQ (mkDec c (-2)) == inject_Z (c * s) * 10 ^ expo x)%Q).
    { unfold dQ, s; cbn [coef expo]. rewrite dQ_shift by lia.
      replace (- 2 - expo x + expo x) with (-2) by lia. reflexivity. }
    assert (Ed : (dQ (mkDec c (-2)) - dQ x == inject_Z (c * s - coef x) * 10 ^ expo x)%Q).
    { rewrite Er. unfold dQ; cbn [coef expo]. unfold Z.sub at 1. rewrite inject_Z_plus, inject_Z_opp. ring. }
    assert (Ehalf : (inject_Z s * 10 ^ expo x == 1 # 100)%Q).
    { unfold s. rewrite <- (Z.mul_1_l (10 ^ _)). rewrite dQ_shift by lia.
      replace (- 2 - expo x + expo x) with (-2) by lia. reflexivity. }
    pose proof (pow10_Q_pos (expo x)) as Hp.
    rewrite Ed, (Qabs_scaled _ _ Hp). split.
    + apply Qmult_le_r with (z := 2%Q); [reflexivity|].
      setoid_replace ((1 # 200) * 2)%Q with (inject_Z s * 10 ^ expo x)%Q
        by (rewrite Ehalf; reflexivity).
      setoid_replace (inject_Z (Z.abs (c * s - coef x)) * 10 ^ expo x * 2)%Q
        with (inject_Z (2 * Z.abs (c * s - coef x)) * 10 ^ expo x)%Q
        by (rewrite inject_Z_mult; ring).
      apply Qmult_le_compat_r; [|apply Qlt_le_weak; exact Hp].
      rewrite <- Zle_Qle. exact Hgap.
    + intros Habs.
      assert (Hz : 2 * Z.abs (c * s - coef x) = s).
      { apply inject_Z_injective.
        apply Qmult_inj_r with (z := (10 ^ expo x)%Q).
        - intros H0. rewrite H0 in Hp. discriminate Hp.
        - rewrite inject_Z_mult, Ehalf.
          setoid_replace (inject_Z 2 * inject_Z (Z.abs (c * s - coef x)) * 10 ^ expo x)%Q
            with (2 * (inject_Z (Z.abs (c * s - coef x)) * 10 ^ expo x))%Q by ring.
          rewrite Habs. reflexivity. }
      specialize (Htie Hz).
      rewrite Er. unfold dQ. rewrite !(Qabs_scaled _ _ Hp).
      apply Qmult_lt_compat_r; [exact Hp|].
      rewrite <- Zlt_Qlt. exact Htie.
Qed.

(** ** The rule store *)

Section RuleOrder.
Variable g : Rule -> Rule.
Hypothesis g_id : forall r, rule_id (g r) = rule_id r.
Hypothesis g_priority : forall r, priority (g r) = priority r.
Hypothesis g_active : forall r, is_active (g r) = is_active r.

Lemma rule_le_map (a b : Rule) : rule_le (g a) (g b) = rule_le a b.
Proof. unfold rule_le. rewrite !g_id, !g_priority. reflexivity. Qed.

Lemma insert_rule_map (r : Rule) (l : list Rule) :
  insert_rule (g r) (map g l) = map g (insert_rule r l).
Proof.
  induction l as [|x xs IH]; simpl; [reflexivity|].
  rewrite rule_le_map. destruct (rule_le r x); simpl; [reflexivity|].
  rewrite IH. reflexivity.
Qed.

Lemma sort_rules_map (l : list Rule) : sort_rules (map g l) = map g (sort_rules l).
Proof.
  induction l as [|x xs IH]; simpl; [reflexivity|].
  unfold sort_rules in *. rewrite IH. apply insert_rule_map.
Qed.

Lemma load_active_rules_map (db : list Rule) :
  load_active_rules (map g db) = map g (load_active_rules db).
Proof.
  unfold load_active_rules. rewrite <- sort_rules_map. f_equal.
  induction db as [|x xs IH]; simpl; [reflexivity|].
  rewrite g_active. destruct (is_active x); simpl; rewrite IH; reflexivity.
Qed.
End RuleOrder.

(** ** The approval resolver *)

Lemma find_threshold_spec (rules : list Rule) (t : Decimal) :
  find_threshold rules t =
  match find has_threshold rules with
  | Some r => decimal_of_value (dict_get (or_empty (parameters r)) "threshold")
  | None => Ok t
  end.
Proof.
  induction rules as [|r rest IH]; simpl; [reflexivity|].
  unfold has_threshold.
  destruct (rule_type r =? "approval_threshold")%string; simpl; [|exact IH].
  destruct (parameters r) as [[|kv params]|] eqn:Ep; simpl; try exact IH.
  destruct (is_none (dict_get (kv :: params) "threshold")); simpl;
    [exact IH | rewrite Ep; reflexivity].
Qed.

Lemma find_threshold_conditions (f : Rule -> option dict) (rules : list Rule) (t : Decimal) :
  find_threshold (map (fun r => set_condition (f r) r) rules) t = find_threshold rules t.
Proof.
  induction rules as [|r rest IH]; simpl; [reflexivity|].
  rewrite IH. reflexivity.
Qed.

Lemma approval_status_unfold (db : list Rule) (final : Decimal) :
  approval_status db final =
    (t <- threshold_used db ;;
     Ok (if dle t final then manager_required else auto_approved, dec_to_int t)).
Proof.
  unfold approval_status, threshold_used. rewrite find_threshold_spec.
  destruct (find has_threshold (load_active_rules db)) as [r|]; simpl.
  - destruct (decimal_of_value _) as [t|e]; simpl; [|reflexivity].
    unfold dge. destruct (dle t final); reflexivity.
  - unfold dge. destruct (dle _ final); reflexivity.
Qed.

Lemma approval_status_exact (db : list Rule) (final : Decimal) (st : approval) (n : Z) :
  approval_status db final = Ok (st, n) ->
  exists t, threshold_used db = Ok t /\ n = dec_to_int t /\
            (st = manager_required <-> (dQ t <= dQ final)%Q).
Proof.
  intros H. rewrite approval_status_unfold in H. apply bind_Ok_inv in H.
  destruct H as [t [Ht H]]. exists t. split; [exact Ht|].
  destruct (dle t final) eqn:E; inversion H; subst; (split; [reflexivity|]).
  - split; [intros _; apply dle_Q; exact E | reflexivity].
  - split; [discriminate|]. intros Hle. apply dle_Q in Hle. congruence.
Qed.

(** C5. The approval resolver compares the final total with the threshold
    in force: 10000 unless an active [approval_threshold] rule carries a
    threshold, in which case the first such rule in priority order decides,
    whatever the conditions of the rules say; the status is
    [manager_required] if and only if the final total is at least that
    threshold, equality included. *)
Theorem approval_status_threshold (db : list Rule) (final : Decimal) :
  approval_status db final =
    (t <- threshold_used db ;;
     Ok (if dle t final then manager_required else auto_approved, dec_to_int t))
  /\ (forall st n, approval_status db final = Ok (st, n) ->
        exists t, threshold_used db = Ok t /\ n = dec_to_int t /\
                  (st = manager_required <-> (dQ t <= dQ final)%Q))
  /\ (forall t, threshold_used db = Ok t -> (dQ final == dQ t)%Q ->
        approval_status db final = Ok (manager_required, dec_to_int t))
  /\ (forall f : Rule -> option dict,
        approval_status (map (fun r => set_condition (f r) r) db) final =
        approval_status db final).
Proof.
  pose proof (approval_status_unfold db final) as Heq.
  split; [exact Heq|]. split; [|split].
  - intros st n H. apply (approval_status_exact db final st n H).
  - intros t Ht Hq. rewrite Heq, Ht. simpl.
    assert (E : dle t final = true) by (apply dle_Q; rewrite Hq; apply Qle_refl).
    rewrite E. reflexivity.
  - intros f. unfold approval_status.
    rewrite (load_active_rules_map (fun r => set_condition (f r) r))
      by (intros r; reflexivity).
    rewrite find_threshold_conditions. reflexivity.
Qed.

(** ** The condition matcher *)

Lemma attributes_match_spec (attrs ac : dict) :
  attributes_match attrs ac = true <->
  forall k e, In (k, e) ac -> py_eq (dict_get attrs k) e = true.
Proof.
  induction ac as [|[k0 e0] rest IH]; simpl.
  - split; [intros _ k e [] | reflexivity].
  - destruct (py_eq (dict_get attrs k0) e0) eqn:E; simpl.
    + rewrite IH. split.
      * intros H k e [Hke|Hin]; [inversion Hke; subst; exact E | apply H; exact Hin].
      * intros H k e Hin. apply H. right. exact Hin.
    + split; [discriminate|]. intros H.
      rewrite (H k0 e0) in E by (left; reflexivity). discriminate E.
Qed.

Lemma matches_condition_true (rule : Rule) (pid : option Z) (attrs : option dict)
    (qty : option Z) (total : option pyfloat) :
  _matches_condition rule pid attrs qty total = Ok true <->
  condition_holds (or_empty (condition rule)) pid attrs qty total.
Proof.
  unfold _matches_condition, condition_holds.
  set (cond := or_empty (condition rule)).
  split.
  - intros H.
    match type of H with (if ?c then _ else _) = _ => destruct c eqn:Ecp end;
      [discriminate H|].
    apply bind_Ok_inv in H. destruct H as [fq [Hfq H]].
    destruct fq; [discriminate H|].
    apply bind_Ok_inv in H. destruct H as [ft [Hft H]].
    destruct ft; [discriminate H|].
    split; [|split; [|split]].
    + intros p v -> Hv. rewrite Hv in Ecp.
      destruct (py_eq v (VInt p)); [reflexivity | discriminate Ecp].
    + intros q v -> Hv. rewrite Hv in Hfq.
      apply bind_Ok_inv in Hfq. destruct Hfq as [m [Hm Hlt]].
      exists m. split; [exact Hm|]. inversion Hlt as [Hb].
      apply Z.ltb_ge. exact Hb.
    + intros t v -> Hv. rewrite Hv in Hft.
      apply bind_Ok_inv in Hft. destruct Hft as [m [Hm Hlt]].
      exists m. split; [exact Hm|]. inversion Hlt as [Hb]. reflexivity.
    + intros a ->.
      destruct (dict_get_default cond "attributes" (VDict [])) as [| | | | | |ac];
        try discriminate H.
      exists ac. split; [reflexivity|]. apply attributes_match_spec.
      inversion H as [Hb]. reflexivity.
  - intros (Hp & Hq & Ht & Ha).
    assert (E1 : match pid, lookup "product_id" cond with
                 | Some p, Some v => negb (py_eq v (VInt p))
                 | _, _ => false
                 end = false).
    { destruct pid as [p|]; [|reflexivity].
      destruct (lookup "product_id" cond) as [v|]; [|reflexivity].
      rewrite (Hp p v eq_refl eq_refl). reflexivity. }
    rewrite E1.
    assert (E2 : match qty, lookup "min_qty" cond with
                 | Some q, Some v => (m <- int_of_value v ;; Ok (q <? m))
                 | _, _ => Ok false
                 end = Ok false).
    { destruct qty as [q|]; [|reflexivity].
      destruct (lookup "min_qty" cond) as [v|]; [|reflexivity].
      destruct (Hq q v eq_refl eq_refl) as [m [Hm Hle]]. rewrite Hm. simpl.
      f_equal. apply Z.ltb_ge. exact Hle. }
    rewrite E2. simpl.
    assert (E3 : match total, lookup "min_order_total" cond with
                 | Some t, Some v => (m <- float_of_value v ;; Ok (flt t m))
                 | _, _ => Ok false
                 end = Ok false).
    { destruct total as [t|]; [|reflexivity].
      destruct (lookup "min_order_total" cond) as [v|]; [|reflexivity].
      destruct (Ht t v eq_refl eq_refl) as [m [Hm Hlt]]. rewrite Hm. simpl.
      rewrite Hlt. reflexivity. }
    rewrite E3. simpl.
    destruct attrs as [a|]; [|reflexivity].
    destruct (Ha a eq_refl) as [ac [Hac Hall]]. rewrite Hac.
    f_equal. apply attributes_match_spec. exact Hall.
Qed.

Lemma matches_condition_absent (rule : Rule) (pid : option Z) (attrs : option dict)
    (qty : option Z) (total : option pyfloat) :
  or_empty (condition rule) = [] ->
  _matches_condition rule pid attrs qty total = Ok true.
Proof.
  intros Hc. apply matches_condition_true. rewrite Hc. unfold condition_holds.
  repeat split; try (intros; discriminate).
  intros a _. exists []. split; [reflexivity|]. intros k e [].
Qed.

Lemma py_eq_None_l (e : value) : py_eq VNone e = true -> e = VNone.
Proof. destruct e; simpl; intros H; try discriminate H; reflexivity. Qed.

Lemma py_eq_Str_r (v : value) (s : string) : py_eq v (VStr s) = true -> v = VStr s.
Proof.
  destruct v; simpl; intros H; try discriminate H.
  apply String.eqb_eq in H. subst. reflexivity.
Qed.

(** C8, as the code has it.  The matcher answers true for an absent or
    empty condition, and otherwise exactly when every check whose key is
    in the condition and whose context value is supplied passes.  The
    attribute check compares by Python's [==] what [attributes.get] returns:
    an absent key therefore passes only against an expected null, and an
    expected string is met only by that very string. *)
Theorem matches_condition_checks (rule : Rule) (pid : option Z) (attrs : option dict)
    (qty : option Z) (total : option pyfloat) :
  (or_empty (condition rule) = [] ->
     _matches_condition rule pid attrs qty total = Ok true)
  /\ (_matches_condition rule pid attrs qty total = Ok true <->
      condition_holds (or_empty (condition rule)) pid attrs qty total)
  /\ (forall a ac k e,
        attrs = Some a ->
        dict_get_default (or_empty (condition rule)) "attributes" (VDict []) = VDict ac ->
        In (k, e) ac ->
        _matches_condition rule pid attrs qty total = Ok true ->
        (lookup k a = None -> e = VNone) /\
        (forall s, e = VStr s -> lookup k a = Some (VStr s))).
Proof.
  split; [apply matches_condition_absent|].
  split; [apply matches_condition_true|].
  intros a ac k e -> Hac Hin H.
  apply matches_condition_true in H. destruct H as (_ & _ & _ & Ha).
  destruct (Ha a eq_refl) as [ac' [Hac' Hall]].
  rewrite Hac in Hac'. inversion Hac'; subst ac'.
  specialize (Hall k e Hin). unfold dict_get in Hall. split.
  - intros Hk. rewrite Hk in Hall. apply py_eq_None_l. exact Hall.
  - intros s ->. apply py_eq_Str_r in Hall.
    destruct (lookup k a) as [v|]; [subst v; reflexivity | discriminate Hall].
Qed.

(** ** The quote *)





Lemma round_currency_expo (x r : Decimal) : _round_currency x = Ok r -> expo r = -2.
Proof. intros H. apply round_currency_inv in H. subst r. reflexivity. Qed.


Lemma select_discount_shape (cs : list AppliedRule) (d : Decimal) (applied : list AppliedRule) :
  select_discount cs = Ok (d, applied) ->
  (cs = [] /\ d = dec_of_Z 0 /\ applied = []) \/
  (expo d = -2 /\ exists r, applied = [r] /\ In r cs).
Proof.
  destruct cs as [|first rest]; simpl; intros H.
  - inversion H. left. repeat split.
  - right. apply bind_Ok_inv in H. destruct H as [best [Hbest H]].
    apply bind_Ok_inv in H. destruct H as [disc [Hdisc H]].
    inversion H; subst. split; [apply (round_currency_expo _ _ Hdisc)|].
    exists (snd best). split; [reflexivity|].
    unfold pick_best in Hbest.
    apply bind_Ok_inv in Hbest. destruct Hbest as [k [_ Hbest]].
    apply bind_Ok_inv in Hbest. destruct Hbest as [ks [Hks Hbest]].
    inversion Hbest; subst best. clear Hbest H Hdisc.
    assert (Hgen : forall ks rest b, keyed rest = Ok ks ->
              snd (max_from b ks) = snd b \/ In (snd (max_from b ks)) rest).
    { clear. induction ks as [|item ks IH]; intros rest b Hk; simpl.
      - left. reflexivity.
      - destruct rest as [|c rest']; simpl in Hk; [inversion Hk|].
        apply bind_Ok_inv in Hk. destruct Hk as [kc [_ Hk]].
        apply bind_Ok_inv in Hk. destruct Hk as [ks' [Hks' Hk]].
        inversion Hk; subst item ks'. simpl.
        destruct (IH rest' (if dgt kc (fst b) then (kc, c) else b) Hks') as [E|E].
        + rewrite E. destruct (dgt kc (fst b)); simpl; [right; left; reflexivity | left; reflexivity].
        + right. right. exact E. }
    destruct (Hgen ks rest (k, first) Hks) as [E|E].
    + rewrite E. left. reflexivity.
    + right. exact E.
Qed.


Lemma compute_discounts_shape db product quantity sub attributes d applied :
  compute_discounts db product quantity sub attributes = Ok (d, applied) ->
  (d = dec_of_Z 0 /\ applied = []) \/ (expo d = -2 /\ exists r, applied = [r]).
Proof.
  unfold compute_discounts. intros H.
  apply bind_Ok_inv in H. destruct H as [cs [_ H]].
  apply select_discount_shape in H.
  destruct H as [(_ & Hd & Ha)|(He & r & Hr & _)].
  - left. split; assumption.
  - right. split; [exact He | exists r; exact Hr].
Qed.




(** ** The discount selector: the final maximum *)

Lemma keyed_In (cs : list AppliedRule) (ks : list (Decimal * AppliedRule)) :
  keyed cs = Ok ks ->
  map snd ks = cs /\ forall k c, In (k, c) ks -> In c cs /\ amount_key c = Ok k.
Proof.
  revert ks. induction cs as [|c cs IH]; simpl; intros ks H.
  - inversion H. split; [reflexivity | intros k c []].
  - apply bind_Ok_inv in H. destruct H as [k [Hk H]].
    apply bind_Ok_inv in H. destruct H as [ks' [Hks' H]].
    inversion H; subst ks. destruct (IH ks' Hks') as [Hmap Hin]. split.
    + simpl. rewrite Hmap. reflexivity.
    + intros k0 c0 [E|E].
      * inversion E; subst. split; [left; reflexivity | exact Hk].
      * destruct (Hin k0 c0 E) as [H1 H2]. split; [right; exact H1 | exact H2].
Qed.

Lemma keyed_total (cs : list AppliedRule) :
  (forall c, In c cs -> exists k, amount_key c = Ok k) ->
  exists ks, keyed cs = Ok ks.
Proof.
  induction cs as [|c cs IH]; simpl; intros H.
  - exists []. reflexivity.
  - destruct (H c (or_introl eq_refl)) as [k Hk]. rewrite Hk. simpl.
    destruct IH as [ks Hks]; [intros c' Hc'; apply H; right; exact Hc'|].
    rewrite Hks. simpl. eexists. reflexivity.
Qed.

(** [max_from] returns the first item that carries the largest key. *)
Lemma max_from_first_max (items : list (Decimal * AppliedRule)) :
  forall (b : Decimal * AppliedRule) (pre0 mid : list (Decimal * AppliedRule)),
  (forall i, In i pre0 -> (dQ (fst i) < dQ (fst b))%Q) ->
  (forall i, In i mid -> (dQ (fst i) <= dQ (fst b))%Q) ->
  exists pre post,
    pre0 ++ b :: mid ++ items = pre ++ max_from b items :: post /\
    (forall i, In i pre -> (dQ (fst i) < dQ (fst (max_from b items)))%Q) /\
    (forall i, In i post -> (dQ (fst i) <= dQ (fst (max_from b items)))%Q).
Proof.
  induction items as [|item rest IH]; intros b pre0 mid Hpre Hmid; simpl.
  - exists pre0, mid. rewrite app_nil_r. repeat split; assumption.
  - destruct (dgt (fst item) (fst b)) eqn:E.
    + apply dgt_Q in E.
      destruct (IH item (pre0 ++ b :: mid) []) as (pre & post & Heq & H1 & H2).
      * intros i Hi. apply in_app_or in Hi. destruct Hi as [Hi|[Hi|Hi]].
        -- apply Qlt_trans with (dQ (fst b)); [apply Hpre; exact Hi | exact E].
        -- subst i. exact E.
        -- apply Qle_lt_trans with (dQ (fst b)); [apply Hmid; exact Hi | exact E].
      * intros i [].
      * exists pre, post. split; [|split; assumption].
        rewrite <- Heq. simpl. rewrite <- app_assoc. reflexivity.
    + assert (Hle : (dQ (fst item) <= dQ (fst b))%Q).
      { apply dlt_false_Q. exact E. }
      destruct (IH b pre0 (mid ++ [item])) as (pre & post & Heq & H1 & H2).
      * exact Hpre.
      * intros i Hi. apply in_app_or in Hi. destruct Hi as [Hi|[Hi|[]]].
        -- apply Hmid; exact Hi.
        -- subst i. exact Hle.
      * exists pre, post. split; [|split; assumption].
        rewrite <- Heq. rewrite <- app_assoc. reflexivity.
Qed.

Lemma pick_best_spec (first : AppliedRule) (rest : list AppliedRule)
    (kbest : Decimal) (best : AppliedRule) :
  pick_best first rest = Ok (kbest, best) ->
  amount_key best = Ok kbest /\
  exists pre post,
    first :: rest = pre ++ best :: post /\
    (forall c k, In c pre -> amount_key c = Ok k -> (dQ k < dQ kbest)%Q) /\
    (forall c k, In c post -> amount_key c = Ok k -> (dQ k <= dQ kbest)%Q).
Proof.
  unfold pick_best. intros H.
  apply bind_Ok_inv in H. destruct H as [k [Hk H]].
  apply bind_Ok_inv in H. destruct H as [ks [Hks H]].
  inversion H as [Hbest]; clear H.
  assert (Hkeyed : keyed (first :: rest) = Ok ((k, first) :: ks)).
  { simpl. rewrite Hk, Hks. reflexivity. }
  destruct (keyed_In _ _ Hkeyed) as [Hmap Hin].
  destruct (max_from_first_max ks (k, first) [] []) as (pre & post & Heq & H1 & H2).
  { intros i []. } { intros i []. }
  simpl in Heq. rewrite Hbest in Heq, H1, H2. cbn [fst] in H1, H2.
  assert (Hb : In (kbest, best) ((k, first) :: ks)).
  { rewrite Heq. apply in_or_app. right. left. reflexivity. }
  split; [apply (Hin _ _ Hb)|].
  exists (map snd pre), (map snd post). split.
  - rewrite <- Hmap, Heq, map_app. reflexivity.
  - assert (Hsub : forall l c k0, In c (map snd l) -> amount_key c = Ok k0 ->
               (forall i, In i l -> In i ((k, first) :: ks)) ->
               exists i, In i l /\ fst i = k0).
    { intros l c k0 Hc Hk0 Hl. apply in_map_iff in Hc. destruct Hc as [[k1 c1] [E Hi]].
      simpl in E. subst c1. exists (k1, c). split; [exact Hi|].
      destruct (Hin k1 c (Hl _ Hi)) as [_ Hk1]. simpl. congruence. }
    split.
    + intros c k0 Hc Hk0.
      destruct (Hsub pre c k0 Hc Hk0) as [i [Hi Ei]].
      { intros i Hi. rewrite Heq. apply in_or_app. left. exact Hi. }
      rewrite <- Ei. apply H1. exact Hi.
    + intros c k0 Hc Hk0.
      destruct (Hsub post c k0 Hc Hk0) as [i [Hi Ei]].
      { intros i Hi. rewrite Heq. apply in_or_app. right. right. exact Hi. }
      rewrite <- Ei. apply H2. exact Hi.
Qed.

Lemma pick_best_unique (first : AppliedRule) (rest : list AppliedRule)
    (A : AppliedRule) (kA : Decimal) :
  In A (first :: rest) -> amount_key A = Ok kA ->
  (forall c, In c (first :: rest) ->
     exists k, amount_key c = Ok k /\ (c = A \/ (dQ k < dQ kA)%Q)) ->
  pick_best first rest = Ok (kA, A).
Proof.
  intros HA HkA Hall.
  destruct (keyed_total (first :: rest)) as [ks Hks].
  { intros c Hc. destruct (Hall c Hc) as [k [Hk _]]. exists k. exact Hk. }
  assert (Hpick : exists kb b, pick_best first rest = Ok (kb, b)).
  { simpl in Hks. unfold pick_best.
    destruct (amount_key first) as [k|]; simpl in *; [|discriminate Hks].
    destruct (keyed rest) as [ks'|]; simpl in *; [|discriminate Hks].
    destruct (max_from (k, first) ks') as [kb b]. exists kb, b. reflexivity. }
  destruct Hpick as (kb & b & Hpick). rewrite Hpick.
  destruct (pick_best_spec _ _ _ _ Hpick) as (Hkb & pre & post & Heq & H1 & H2).
  assert (Hb : In b (first :: rest)).
  { rewrite Heq. apply in_or_app. right. left. reflexivity. }
  assert (HbA : b = A).
  { destruct (Hall b Hb) as [k [Hk [E|Hlt]]]; [exact E|].
    rewrite Hkb in Hk. inversion Hk; subst k. exfalso.
    rewrite Heq in HA. apply in_app_or in HA. destruct HA as [HA|[HA|HA]].
    - pose proof (H1 A kA HA HkA) as Hlt'.
      exact (Qlt_irrefl _ (Qlt_trans _ _ _ Hlt Hlt')).
    - subst b. rewrite HkA in Hkb. inversion Hkb; subst kb.
      exact (Qlt_irrefl _ Hlt).
    - pose proof (H2 A kA HA HkA) as Hle.
      exact (Qlt_not_le _ _ Hlt Hle). }
  subst b. congruence.
Qed.

Lemma select_discount_unique (cs : list AppliedRule) (A : AppliedRule) (kA : Decimal) :
  In A cs -> amount_key A = Ok kA ->
  (forall c, In c cs ->
     exists k, amount_key c = Ok k /\ (c = A \/ (dQ k < dQ kA)%Q)) ->
  select_discount cs = (d <- _round_currency kA ;; Ok (d, [A])).
Proof.
  intros HA HkA Hall. destruct cs as [|first rest]; [destruct HA|].
  simpl. rewrite (pick_best_unique first rest A kA HA HkA Hall). reflexivity.
Qed.

(** C2. [compute_discounts] returns zero and no rule when there is no
    candidate; otherwise it returns exactly one rule, the first candidate in
    evaluation order whose amount is the largest: every earlier candidate
    is strictly smaller, every later one is at most as large.  A candidate
    strictly larger than all the others is chosen in whatever order the
    candidates are evaluated. *)
Theorem compute_discounts_best (db : list Rule) (product : Product)
    (quantity : Z) (sub : Decimal) (attributes : dict) :
  (discount_candidates product quantity sub attributes (load_active_rules db) = Ok [] ->
     compute_discounts db product quantity sub attributes = Ok (dec_of_Z 0, []))
  /\ (forall d applied,
       compute_discounts db product quantity sub attributes = Ok (d, applied) ->
       (List.length applied <= 1)%nat /\
       exists cs,
         discount_candidates product quantity sub attributes (load_active_rules db) = Ok cs /\
         ((cs = [] /\ d = dec_of_Z 0 /\ applied = []) \/
          exists best kbest pre post,
            applied = [best] /\ cs = pre ++ best :: post /\
            amount_key best = Ok kbest /\ _round_currency kbest = Ok d /\
            (forall c k, In c pre -> amount_key c = Ok k -> (dQ k < dQ kbest)%Q) /\
            (forall c k, In c post -> amount_key c = Ok k -> (dQ k <= dQ kbest)%Q)))
  /\ (forall cs cs' A kA,
       Permutation cs cs' -> In A cs -> amount_key A = Ok kA ->
       (forall c, In c cs ->
          exists k, amount_key c = Ok k /\ (c = A \/ (dQ k < dQ kA)%Q)) ->
       select_discount cs = (d <- _round_currency kA ;; Ok (d, [A])) /\
       select_discount cs' = select_discount cs).
Proof.
  split; [|split].
  - intros H. unfold compute_discounts. rewrite H. reflexivity.
  - intros d applied H. unfold compute_discounts in H.
    apply bind_Ok_inv in H. destruct H as [cs [Hcs H]].
    destruct cs as [|first rest].
    + simpl in H. inversion H; subst. split; [simpl; lia|].
      exists []. split; [exact Hcs|]. left. repeat split.
    + simpl in H. apply bind_Ok_inv in H. destruct H as [[kbest best] [Hbest H]].
      apply bind_Ok_inv in H. destruct H as [disc [Hdisc H]].
      inversion H; subst. split; [simpl; lia|].
      exists (first :: rest). split; [exact Hcs|]. right.
      destruct (pick_best_spec _ _ _ _ Hbest) as (Hk & pre & post & Heq & H1 & H2).
      exists best, kbest, pre, post. repeat split; assumption.
  - intros cs cs' A kA Hperm HA HkA Hall.
    assert (E : select_discount cs = (d <- _round_currency kA ;; Ok (d, [A]))).
    { apply select_discount_unique; assumption. }
    split; [exact E|]. rewrite E.
    apply select_discount_unique.
    + apply (Permutation_in A Hperm HA).
    + exact HkA.
    + intros c Hc. apply Hall. apply (Permutation_in c (Permutation_sym Hperm) Hc).
Qed.

(** Sixty red widgets: the 12 % tier (721.20) beats the 10 % order discount
    (601.00), evaluated first. *)
Lemma compute_discounts_best_witness :
  exists best,
    compute_discounts Fixture.rules Fixture.widget 60 (mkDec 601000 (-2)) Fixture.red
      = Ok (mkDec 72120 (-2), [best]) /\
    applied_id best = 3 /\ (List.length [best] <= 1)%nat.
Proof.
  destruct (compute_discounts Fixture.rules Fixture.widget 60 (mkDec 601000 (-2)) Fixture.red)
    as [[d applied]|e] eqn:H; [|vm_compute in H; discriminate H].
  destruct (compute_discounts_best Fixture.rules Fixture.widget 60
              (mkDec 601000 (-2)) Fixture.red) as (_ & Hsel & _).
  destruct (Hsel d applied H) as [Hlen _].
  vm_compute in H. inversion H; subst d applied.
  eexists. split; [reflexivity|]. split; [reflexivity | exact Hlen].
Defined.

(** ** The discount selector: tiers *)

Lemma tier_step_inv (quantity : Z) (b b1 : Decimal) (tier : value) :
  tier_step quantity b tier = Ok b1 ->
  exists t m p,
    tier = VDict t /\
    int_of_value (dict_get_default t "min_qty" (VInt 0)) = Ok m /\
    decimal_of_value (dict_get_default t "percent_off" (VInt 0)) = Ok p /\
    b1 = (if (m <=? quantity) && dgt p b then p else b).
Proof.
  destruct tier as [| | | | | |t]; simpl; try discriminate.
  intros H. apply bind_Ok_inv in H. destruct H as [m [Hm H]].
  apply bind_Ok_inv in H. destruct H as [p [Hp H]].
  inversion H. exists t, m, p. repeat split; assumption.
Qed.







(** ** The adjustment calculator *)













(** ** Signs through float and back *)











Lemma dQ_nonneg (x : Decimal) : 0 <= coef x <-> (0 <= dQ x)%Q.
Proof.
  unfold dQ. pose proof (pow10_Q_pos (expo x)) as Hp. split; intros H.
  - apply Qmult_le_0_compat; [|apply Qlt_le_weak; exact Hp].
    change 0%Q with (inject_Z 0). rewrite <- Zle_Qle. exact H.
  - destruct (Z_le_gt_dec 0 (coef x)) as [Hc|Hc]; [exact Hc|]. exfalso.
    assert (Hlt : (inject_Z (coef x) * 10 ^ expo x < 0 * 10 ^ expo x)%Q).
    { apply Qmult_lt_compat_r; [exact Hp|].
      change 0%Q with (inject_Z 0). rewrite <- Zlt_Qlt. lia. }
    rewrite Qmult_0_l in Hlt. exact (Qle_not_lt _ _ H Hlt).
Qed.


(** ** The discount selector: candidates *)










(** The threshold rule of the fixture: a final total of exactly 10000.00
    needs a manager. *)
Lemma approval_status_threshold_witness :
  approval_status Fixture.rules (mkDec 1000000 (-2)) = Ok (manager_required, 10000).
Proof.
  destruct (approval_status_threshold Fixture.rules (mkDec 1000000 (-2)))
    as (_ & _ & Heq & _).
  apply (Heq (dec_of_Z 10000)); reflexivity.
Defined.

(** A rule without condition matches. *)
Lemma matches_condition_checks_witness :
  _matches_condition Cases.penny_tier (Some 1) (Some Fixture.red) (Some 1) None = Ok true.
Proof.
  apply (proj1 (matches_condition_checks Cases.penny_tier (Some 1) (Some Fixture.red)
                  (Some 1) None)).
  reflexivity.
Defined.

(** C8 fails as stated.  A condition that expects a null colour matches a
    context without the key [color]; a condition that expects the integer 1
    matches the boolean true. *)
Lemma matches_condition_absent_key_passes :
  lookup "color" [("size"%string, VStr "L")] = None /\
  _matches_condition Cases.null_color (Some 1) (Some [("size"%string, VStr "L")]) None None
    = Ok true /\
  _matches_condition Cases.premium_one (Some 1) (Some [("premium"%string, VBool true)])
      None None
    = Ok true.
Proof. repeat split. Qed.

(** ** Decimal and float in the engine *)




(** ** Rules with missing or malformed parameters *)










(** * Further properties of the code *)

(** ** The rule store: order and content *)

Lemma rule_le_total (a b : Rule) : rule_le a b = false -> rule_le b a = true.
Proof.
  unfold rule_le. intros H.
  apply orb_false_iff in H. destruct H as [H1 H2].
  apply Z.ltb_ge in H1. apply andb_false_iff in H2.
  apply orb_true_iff.
  destruct (Z.eq_dec (priority a) (priority b)) as [E|E].
  - right. apply andb_true_iff. split; [apply Z.eqb_eq; lia|].
    destruct H2 as [H2|H2]; [apply Z.eqb_neq in H2; lia|].
    apply Z.leb_gt in H2. apply Z.leb_le. lia.
  - left. apply Z.ltb_lt. lia.
Qed.

Lemma rule_le_trans (a b c : Rule) :
  rule_le a b = true -> rule_le b c = true -> rule_le a c = true.
Proof.
  unfold rule_le. intros H1 H2.
  apply orb_true_iff in H1. apply orb_true_iff in H2. apply orb_true_iff.
  destruct H1 as [H1|H1]; destruct H2 as [H2|H2];
    try apply Z.ltb_lt in H1; try apply Z.ltb_lt in H2;
    try (apply andb_true_iff in H1; destruct H1 as [H1 H1']; apply Z.eqb_eq in H1;
         apply Z.leb_le in H1');
    try (apply andb_true_iff in H2; destruct H2 as [H2 H2']; apply Z.eqb_eq in H2;
         apply Z.leb_le in H2').
  - left. apply Z.ltb_lt. lia.
  - left. apply Z.ltb_lt. lia.
  - left. apply Z.ltb_lt. lia.
  - right. apply andb_true_iff. split; [apply Z.eqb_eq; lia | apply Z.leb_le; lia].
Qed.

Lemma rule_le_antisym (a b : Rule) :
  rule_le a b = true -> rule_le b a = true ->
  priority a = priority b /\ rule_id a = rule_id b.
Proof.
  unfold rule_le. intros H1 H2.
  apply orb_true_iff in H1. apply orb_true_iff in H2.
  destruct H1 as [H1|H1]; destruct H2 as [H2|H2];
    try apply Z.ltb_lt in H1; try apply Z.ltb_lt in H2;
    try (apply andb_true_iff in H1; destruct H1 as [H1 H1']; apply Z.eqb_eq in H1;
         apply Z.leb_le in H1');
    try (apply andb_true_iff in H2; destruct H2 as [H2 H2']; apply Z.eqb_eq in H2;
         apply Z.leb_le in H2'); lia.
Qed.

Lemma insert_rule_perm (r : Rule) (l : list Rule) : Permutation (r :: l) (insert_rule r l).
Proof.
  induction l as [|x xs IH]; simpl; [apply Permutation_refl|].
  destruct (rule_le r x); [apply Permutation_refl|].
  apply perm_trans with (x :: r :: xs); [apply perm_swap|].
  apply perm_skip. exact IH.
Qed.

Lemma sort_rules_perm (l : list Rule) : Permutation l (sort_rules l).
Proof.
  induction l as [|x xs IH]; simpl; [apply perm_nil|].
  apply perm_trans with (x :: sort_rules xs); [apply perm_skip; exact IH|].
  apply insert_rule_perm.
Qed.

Lemma insert_rule_sorted (r : Rule) (l : list Rule) :
  StronglySorted rule_order l -> StronglySorted rule_order (insert_rule r l).
Proof.
  induction 1 as [|x xs Hs IH Hall]; simpl.
  - constructor; [constructor | constructor].
  - destruct (rule_le r x) eqn:E.
    + constructor; [constructor; assumption|].
      constructor; [exact E|].
      rewrite Forall_forall in *. intros y Hy.
      apply (rule_le_trans r x y E (Hall y Hy)).
    + constructor; [exact IH|].
      rewrite Forall_forall in *. intros y Hy.
      apply (Permutation_in y (Permutation_sym (insert_rule_perm r xs))) in Hy.
      destruct Hy as [<-|Hy]; [apply rule_le_total; exact E | apply Hall; exact Hy].
Qed.

Lemma sort_rules_sorted (l : list Rule) : StronglySorted rule_order (sort_rules l).
Proof.
  induction l as [|x xs IH]; simpl; [constructor|].
  apply insert_rule_sorted. exact IH.
Qed.

Lemma load_active_rules_In (db : list Rule) (r : Rule) :
  In r (load_active_rules db) <-> In r db /\ is_active r = true.
Proof.
  unfold load_active_rules. rewrite <- filter_In. split; intros H.
  - apply (Permutation_in r (Permutation_sym (sort_rules_perm _)) H).
  - apply (Permutation_in r (sort_rules_perm _) H).
Qed.

(** X1. [load_active_rules] returns exactly the active rules, each as often
    as the table holds it, in ascending order of (priority, id); an
    inactive rule is never among them. *)
Theorem load_active_rules_sorted_active (db : list Rule) :
  StronglySorted rule_order (load_active_rules db) /\
  Permutation (filter is_active db) (load_active_rules db) /\
  (forall r, In r (load_active_rules db) <-> In r db /\ is_active r = true).
Proof.
  unfold load_active_rules. split; [apply sort_rules_sorted|].
  split; [apply sort_rules_perm|].
  intros r. rewrite <- filter_In. split; intros H.
  - apply (Permutation_in r (Permutation_sym (sort_rules_perm _)) H).
  - apply (Permutation_in r (sort_rules_perm _) H).
Qed.

(** X2. [get_rules] lists every rule of the table, active or not, once per
    row, in ascending order of (priority, id). *)
Theorem get_rules_sorted_all (db : list Rule) :
  exists sorted,
    get_rules db = map rule_out sorted /\
    StronglySorted rule_order sorted /\
    Permutation db sorted /\
    List.length (get_rules db) = List.length db.
Proof.
  exists (sort_rules db). split; [reflexivity|].
  split; [apply sort_rules_sorted|]. split; [apply sort_rules_perm|].
  unfold get_rules. rewrite length_map.
  symmetry. apply Permutation_length. apply sort_rules_perm.
Qed.

Lemma sorted_perm_eq (l1 : list Rule) :
  forall l2,
  StronglySorted rule_order l1 -> StronglySorted rule_order l2 ->
  Permutation l1 l2 ->
  (forall a b, In a l1 -> In b l1 -> rule_order a b -> rule_order b a -> a = b) ->
  l1 = l2.
Proof.
  induction l1 as [|a t1 IH]; intros l2 H1 H2 Hp Hanti.
  - apply Permutation_nil in Hp. subst. reflexivity.
  - destruct l2 as [|b t2]; [apply Permutation_sym, Permutation_nil in Hp; discriminate Hp|].
    inversion H1 as [|? ? Hs1 Hall1]; subst. inversion H2 as [|? ? Hs2 Hall2]; subst.
    rewrite Forall_forall in Hall1, Hall2.
    assert (Hb : In b (a :: t1)).
    { apply (Permutation_in b (Permutation_sym Hp)). left. reflexivity. }
    assert (Ha : In a (b :: t2)).
    { apply (Permutation_in a Hp). left. reflexivity. }
    assert (E : a = b).
    { destruct Hb as [E|Hb]; [exact E|]. destruct Ha as [E|Ha]; [symmetry; exact E|].
      apply Hanti; [left; reflexivity | right; exact Hb | apply Hall1; exact Hb
                   | apply Hall2; exact Ha]. }
    subst b. f_equal. apply IH; try assumption.
    + apply (Permutation_cons_inv Hp).
    + intros x y Hx Hy. apply Hanti; right; assumption.
Qed.

Lemma NoDup_map_inj (l : list Rule) (a b : Rule) :
  NoDup (map rule_id l) -> In a l -> In b l -> rule_id a = rule_id b -> a = b.
Proof.
  induction l as [|x xs IH]; simpl; intros Hnd Ha Hb E; [destruct Ha|].
  inversion Hnd as [|? ? Hnotin Hnd']; subst.
  destruct Ha as [<-|Ha]; destruct Hb as [<-|Hb].
  - reflexivity.
  - exfalso. apply Hnotin. rewrite E. apply in_map. exact Hb.
  - exfalso. apply Hnotin. rewrite <- E. apply in_map. exact Ha.
  - apply IH; assumption.
Qed.

Lemma load_active_rules_perm (db db' : list Rule) :
  NoDup (map rule_id db) -> Permutation db db' ->
  load_active_rules db = load_active_rules db'.
Proof.
  intros Hnd Hp.
  apply sorted_perm_eq.
  - apply sort_rules_sorted.
  - apply sort_rules_sorted.
  - apply perm_trans with (filter is_active db);
      [apply Permutation_sym; apply sort_rules_perm|].
    apply perm_trans with (filter is_active db'); [|apply sort_rules_perm].
    clear -Hp. induction Hp; simpl.
    + apply perm_nil.
    + destruct (is_active x); [apply perm_skip|]; exact IHHp.
    + destruct (is_active x); destruct (is_active y);
        try apply Permutation_refl. apply perm_swap.
    + apply perm_trans with (filter is_active l'); assumption.
  - intros a b Ha Hb Hab Hba.
    destruct (rule_le_antisym a b Hab Hba) as [_ Eid].
    apply (NoDup_map_inj db a b Hnd);
      [apply (load_active_rules_In db a); exact Ha
      | apply (load_active_rules_In db b); exact Hb | exact Eid].
Qed.

(** X3. The order of the rows in the [rules] table does not matter: when
    the ids are distinct, two tables holding the same rows give the same
    evaluation order, hence the same adjustments, discount and approval. *)
Theorem row_order_irrelevant (db db' : list Rule) (product : Product)
    (attributes : dict) (quantity : Z) (sub final : Decimal) :
  NoDup (map rule_id db) -> Permutation db db' ->
  load_active_rules db = load_active_rules db' /\
  compute_config_adjustments db product attributes =
    compute_config_adjustments db' product attributes /\
  compute_discounts db product quantity sub attributes =
    compute_discounts db' product quantity sub attributes /\
  approval_status db final = approval_status db' final.
Proof.
  intros Hnd Hp. pose proof (load_active_rules_perm db db' Hnd Hp) as E.
  split; [exact E|].
  unfold compute_config_adjustments, compute_discounts, approval_status.
  rewrite E. repeat split.
Qed.

(** The fixture read in the reverse order. *)
Lemma row_order_irrelevant_witness :
  load_active_rules Fixture.rules = load_active_rules (rev Fixture.rules).
Proof.
  assert (Hnd : NoDup (map rule_id Fixture.rules)).
  { simpl. repeat constructor; simpl; intuition discriminate. }
  exact (proj1 (row_order_irrelevant Fixture.rules (rev Fixture.rules) Fixture.widget
                  Fixture.red 1 (mkDec 0 0) (mkDec 0 0) Hnd (Permutation_rev _))).
Defined.

(** ** Rules of one type do not disturb the others *)

Lemma filter_insert_rule (q : Rule -> bool) (r : Rule) (l : list Rule) :
  StronglySorted rule_order l ->
  filter q (insert_rule r l) =
  if q r then insert_rule r (filter q l) else filter q l.
Proof.
  induction 1 as [|x xs Hs IH Hall]; simpl.
  - destruct (q r); reflexivity.
  - destruct (rule_le r x) eqn:E; simpl.
    + destruct (q r) eqn:Er; [|reflexivity].
      destruct (q x) eqn:Ex; simpl; [rewrite E; reflexivity|].
      (* the first kept row, if any, comes after x, hence after r *)
      assert (Hfront : forall ys, Forall (rule_order x) ys ->
                insert_rule r (filter q ys) = r :: filter q ys).
      { induction ys as [|y ys IHy]; intros Hys; simpl; [reflexivity|].
        inversion Hys as [|? ? Hxy Hys']; subst.
        destruct (q y); simpl; [|apply IHy; exact Hys'].
        assert (Ery : rule_le r y = true) by (apply (rule_le_trans r x y E Hxy)).
        rewrite Ery. reflexivity. }
      rewrite (Hfront xs Hall). reflexivity.
    + rewrite IH. destruct (q x) eqn:Ex; destruct (q r) eqn:Er; simpl;
        try rewrite E; reflexivity.
Qed.

Lemma sort_rules_filter (q : Rule -> bool) (l : list Rule) :
  sort_rules (filter q l) = filter q (sort_rules l).
Proof.
  induction l as [|x xs IH]; simpl; [reflexivity|].
  rewrite (filter_insert_rule q x (sort_rules xs) (sort_rules_sorted xs)).
  destruct (q x); simpl; rewrite IH; reflexivity.
Qed.

Lemma filter_comm (p q : Rule -> bool) (l : list Rule) :
  filter p (filter q l) = filter q (filter p l).
Proof.
  induction l as [|x xs IH]; simpl; [reflexivity|].
  destruct (p x) eqn:Ep; destruct (q x) eqn:Eq; simpl;
    try rewrite Ep; try rewrite Eq; rewrite IH; reflexivity.
Qed.

Lemma load_active_rules_filter (q : Rule -> bool) (db : list Rule) :
  load_active_rules (filter q db) = filter q (load_active_rules db).
Proof.
  unfold load_active_rules. rewrite filter_comm. apply sort_rules_filter.
Qed.

Lemma config_loop_filter (product : Product) (attributes : dict) (rules : list Rule) :
  forall t ap,
  config_loop product attributes (filter is_config rules) t ap =
  config_loop product attributes rules t ap.
Proof.
  induction rules as [|r rest IH]; intros t ap; simpl; [reflexivity|].
  unfold is_config at 1. destruct (rule_type r =? "config_adjustment")%string eqn:E; simpl.
  - destruct (config_rule product attributes r) as [[[inc record]|]|e]; simpl;
      try reflexivity; [|apply IH].
    destruct (dadd t inc); simpl; [apply IH | reflexivity].
  - unfold config_rule. rewrite E. simpl. apply IH.
Qed.

Lemma discount_candidates_filter (product : Product) (quantity : Z) (sub : Decimal)
    (attributes : dict) (rules : list Rule) :
  discount_candidates product quantity sub attributes (filter is_discount rules) =
  discount_candidates product quantity sub attributes rules.
Proof.
  induction rules as [|r rest IH]; simpl; [reflexivity|].
  destruct (is_discount r) eqn:E; simpl.
  - rewrite IH. reflexivity.
  - rewrite IH. unfold discount_rule. unfold is_discount in E. rewrite E. simpl.
    destruct (discount_candidates product quantity sub attributes rest); reflexivity.
Qed.

Lemma find_threshold_filter (rules : list Rule) (t : Decimal) :
  find_threshold (filter is_approval rules) t = find_threshold rules t.
Proof.
  induction rules as [|r rest IH]; simpl; [reflexivity|].
  unfold is_approval at 1.
  destruct (rule_type r =? "approval_threshold")%string eqn:E; simpl.
  - rewrite E. destruct (parameters r) as [[|kv params]|]; try exact IH.
    destruct (is_none (dict_get (kv :: params) "threshold")); [exact IH | reflexivity].
  - exact IH.
Qed.

(** X4. Each engine function reads only the rules of its own types: the
    adjustments depend only on the [config_adjustment] rules, the discount
    only on the [order_discount] and [tiered_discount] rules, the approval
    only on the [approval_threshold] rules.  Rules of any other type,
    whatever their content, change nothing and raise nothing. *)
Theorem rule_types_isolated (db : list Rule) (product : Product)
    (attributes : dict) (quantity : Z) (sub final : Decimal) :
  compute_config_adjustments (filter is_config db) product attributes =
    compute_config_adjustments db product attributes /\
  compute_discounts (filter is_discount db) product quantity sub attributes =
    compute_discounts db product quantity sub attributes /\
  approval_status (filter is_approval db) final = approval_status db final.
Proof.
  unfold compute_config_adjustments, compute_discounts, approval_status.
  rewrite !load_active_rules_filter.
  rewrite config_loop_filter, discount_candidates_filter, find_threshold_filter.
  repeat split.
Qed.

(** X5. Inactive rules never fire: dropping them from the table changes no
    result.  With no active rule at all the adjustments are 0.00 with no
    record, the discount is 0 with no record, and the approval threshold is
    10000. *)
Theorem inactive_rules_ignored (db : list Rule) (product : Product)
    (attributes : dict) (quantity : Z) (sub final : Decimal) :
  (compute_config_adjustments (filter is_active db) product attributes =
     compute_config_adjustments db product attributes /\
   compute_discounts (filter is_active db) product quantity sub attributes =
     compute_discounts db product quantity sub attributes /\
   approval_status (filter is_active db) final = approval_status db final) /\
  (filter is_active db = [] ->
   compute_config_adjustments db product attributes = Ok (mkDec 0 (-2), []) /\
   compute_discounts db product quantity sub attributes = Ok (dec_of_Z 0, []) /\
   approval_status db final =
     Ok (if dle (dec_of_Z 10000) final then manager_required else auto_approved, 10000)).
Proof.
  assert (E : load_active_rules (filter is_active db) = load_active_rules db).
  { unfold load_active_rules. f_equal.
    induction db as [|x xs IH]; simpl; [reflexivity|].
    destruct (is_active x) eqn:Ex; simpl; [rewrite Ex, IH; reflexivity | exact IH]. }
  split.
  - unfold compute_config_adjustments, compute_discounts, approval_status.
    rewrite E. repeat split.
  - intros Hnone.
    unfold compute_config_adjustments, compute_discounts, approval_status, load_active_rules.
    rewrite Hnone. simpl. repeat split.
    unfold dge. destruct (dle (dec_of_Z 10000) final); reflexivity.
Qed.

(** ** Rounding to cents *)

(** X6. Rounding to cents is idempotent: a rounded amount rounds to
    itself, and so does every amount already written with two decimals
    that fits the context. *)
Theorem round_currency_idempotent :
  (forall x r, _round_currency x = Ok r -> _round_currency r = Ok r) /\
  (forall c, Z.abs c < prec_limit -> _round_currency (mkDec c (-2)) = Ok (mkDec c (-2))).
Proof.
  assert (H2 : forall c, Z.abs c < prec_limit ->
                 _round_currency (mkDec c (-2)) = Ok (mkDec c (-2))).
  { intros c Hc. unfold _round_currency, cents_half_up. simpl.
    rewrite Z.mul_1_r. unfold fits_context.
    apply Z.ltb_lt in Hc. rewrite Hc. reflexivity. }
  split; [|exact H2].
  intros x r H. unfold _round_currency in H.
  destruct (fits_context (cents_half_up x)) eqn:E; [|discriminate H].
  inversion H; subst r. apply H2. unfold fits_context in E. apply Z.ltb_lt. exact E.
Qed.

Lemma dQ_cents (r : Decimal) : expo r = -2 -> (dQ r == inject_Z (coef r) * (1 # 100))%Q.
Proof. intros He. unfold dQ. rewrite He. reflexivity. Qed.

Lemma Qabs_lt_cases (u v : Q) :
  (Qabs u < Qabs v)%Q ->
  ((0 < v)%Q /\ (- v < u)%Q /\ (u < v)%Q) \/ ((v < 0)%Q /\ (v < u)%Q /\ (u < - v)%Q).
Proof.
  intros H. apply Qabs_Qlt_condition in H. destruct H as [H1 H2].
  destruct (Qlt_le_dec 0 v) as [Hv|Hv].
  - left. rewrite (Qabs_pos v) in H1, H2 by (apply Qlt_le_weak; exact Hv).
    repeat split; assumption.
  - right. rewrite (Qabs_neg v Hv) in H1, H2.
    assert (Hne : ~ (v == 0)%Q).
    { intros E. rewrite E in H1, H2. lra. }
    repeat split; lra.
Qed.

Lemma rounds_half_up_monotone (x y rx ry : Decimal) :
  rounds_half_up x rx -> rounds_half_up y ry ->
  (dQ x <= dQ y)%Q -> (dQ rx <= dQ ry)%Q.
Proof.
  intros (Ex & Hx & Tx) (Ey & Hy & Ty) Hxy.
  pose proof (dQ_cents rx Ex) as Erx. pose proof (dQ_cents ry Ey) as Ery.
  destruct (Z_le_gt_dec (coef rx) (coef ry)) as [Hle|Hgt].
  - rewrite Erx, Ery. apply Qmult_le_compat_r; [|discriminate].
    rewrite <- Zle_Qle. exact Hle.
  - exfalso.
    assert (Hstep : (inject_Z (coef ry) + 1 <= inject_Z (coef rx))%Q).
    { change 1%Q with (inject_Z 1). rewrite <- inject_Z_plus, <- Zle_Qle. lia. }
    apply Qabs_Qle_condition in Hx. apply Qabs_Qle_condition in Hy.
    destruct Hx as [Hx1 Hx2]. destruct Hy as [Hy1 Hy2].
    assert (E1 : (dQ rx - dQ x == 1 # 200)%Q) by lra.
    assert (E2 : (dQ ry - dQ y == - (1 # 200))%Q) by lra.
    assert (Exy : (dQ x == dQ y)%Q) by lra.
    assert (A1 : (Qabs (dQ rx - dQ x) == 1 # 200)%Q).
    { rewrite E1. reflexivity. }
    assert (A2 : (Qabs (dQ ry - dQ y) == 1 # 200)%Q).
    { rewrite E2. reflexivity. }
    specialize (Tx A1). specialize (Ty A2).
    apply Qabs_lt_cases in Tx. apply Qabs_lt_cases in Ty.
    assert (Ha : (0 < inject_Z (coef rx))%Q).
    { destruct Tx as [(P & _ & _)|(P & Q1 & _)]; lra. }
    assert (Hb : (inject_Z (coef ry) < 0)%Q).
    { destruct Ty as [(P & _ & Q2)|(P & _ & _)]; lra. }
    assert (Hab : (inject_Z (coef rx) == inject_Z (coef ry + 1))%Q).
    { rewrite inject_Z_plus. change (inject_Z 1) with 1%Q. lra. }
    apply (proj1 (inject_Z_injective _ _)) in Hab.
    change 0%Q with (inject_Z 0) in Ha, Hb.
    rewrite <- Zlt_Qlt in Ha, Hb. lia.
Qed.

(** X7. Rounding to cents preserves order: of two amounts, the smaller
    never rounds to more than the larger. *)
Theorem round_currency_monotone (x y rx ry : Decimal) :
  _round_currency x = Ok rx -> _round_currency y = Ok ry ->
  (dQ x <= dQ y)%Q -> (dQ rx <= dQ ry)%Q.
Proof.
  intros Hx Hy Hxy.
  apply (rounds_half_up_monotone x y rx ry); try assumption.
  - apply round_currency_spec. exact Hx.
  - apply round_currency_spec. exact Hy.
Qed.

(** -0.005 and 0.005 round away from zero, to -0.01 and 0.01. *)
Lemma round_currency_monotone_witness :
  (dQ (mkDec (-1) (-2)) <= dQ (mkDec 1 (-2)))%Q.
Proof.
  apply (round_currency_monotone (mkDec (-5) (-3)) (mkDec 5 (-3))).
  - reflexivity.
  - reflexivity.
  - discriminate.
Defined.

(** ** The handlers *)

(** X8. [/configure] answers 404 exactly when the product is unknown, and
    it previews the quote: whenever [/quote] answers for a product and its
    attributes, [/configure] answers too, with the adjustments the quote
    reports. *)
Theorem configure_previews_quote (products : list Product) (db : list Rule)
    (pid : Z) (attributes : dict) :
  (configure products db (mkConfigureRequest pid attributes) = HTTP404 <->
   find_product products pid = None) /\
  (forall quantity q,
     quote products db (mkRequest pid quantity attributes) = Response q ->
     exists c,
       configure products db (mkConfigureRequest pid attributes) = Response c /\
       cr_adjustments c = float_of_decimal (adjustments_total q) /\
       cr_adjustments c = bd_adjustments_total (breakdown q) /\
       cr_product_id c = q_product_id q /\
       cr_attributes c = q_attributes q).
Proof.
  split.
  - unfold configure. simpl. destruct (find_product products pid) as [product|].
    + split; [|discriminate]. unfold handler.
      destruct (compute_config_adjustments db product attributes) as [[t a]|e];
        simpl; discriminate.
    + split; reflexivity.
  - intros quantity q H. unfold quote in H. simpl in H.
    destruct (quantity <? 1); [discriminate H|].
    unfold configure. simpl.
    destruct (find_product products pid) as [product|]; [|discriminate H].
    unfold handler in H.
    match type of H with match ?m with _ => _ end = _ => destruct m as [r|e] eqn:E end;
      [|discriminate H].
    inversion H; subst r; clear H.
    apply bind_Ok_inv in E. destruct E as [[adj applied_c] [Hadj E]].
    apply bind_Ok_inv in E. destruct E as [gross [_ E]].
    apply bind_Ok_inv in E. destruct E as [sub [_ E]].
    apply bind_Ok_inv in E. destruct E as [[disc applied_d] [_ E]].
    apply bind_Ok_inv in E. destruct E as [fin [_ E]].
    apply bind_Ok_inv in E. destruct E as [[appr thr] [_ E]].
    inversion E; subst q; clear E.
    rewrite Hadj. simpl. eexists. split; [reflexivity|]. repeat split.
Qed.

(** ** More units, more rules *)

(** X9. Ordering more never loses a rule nor lowers a tier: a condition
    that holds for a quantity holds for every larger one, the other inputs
    unchanged, and the best tier percentage does not decrease when the
    quantity grows. *)
Theorem quantity_monotone (rule : Rule) (pid : option Z) (attrs : option dict)
    (total : option pyfloat) (tiers : list value) (q q' : Z) :
  q <= q' ->
  (_matches_condition rule pid attrs (Some q) total = Ok true ->
   _matches_condition rule pid attrs (Some q') total = Ok true) /\
  (forall b0 best,
     scan_tiers q tiers b0 = Ok best ->
     exists best', scan_tiers q' tiers b0 = Ok best' /\ (dQ best <= dQ best')%Q).
Proof.
  intros Hq. split.
  - intros H. apply matches_condition_true in H. apply matches_condition_true.
    destruct H as (Hp & Hm & Ht & Ha). repeat split; try assumption.
    intros q0 v E Hv. inversion E; subst q0.
    destruct (Hm q v eq_refl Hv) as [m [Hm1 Hm2]]. exists m. split; [exact Hm1 | lia].
  - induction tiers as [|tier rest IH]; intros b0 best H; simpl in *.
    + inversion H; subst. exists best. split; [reflexivity | apply Qle_refl].
    + apply bind_Ok_inv in H. destruct H as [b1 [Hstep H]].
      destruct (tier_step_inv _ _ _ _ Hstep) as (t & m & p & -> & Hm & Hp & Hb1).
      simpl. rewrite Hm, Hp. simpl.
      set (b1' := if (m <=? q') && dgt p b0 then p else b0).
      (* the running best at q' is at least the one at q *)
      assert (Hle : (dQ b1 <= dQ b1')%Q).
      { subst b1 b1'. destruct (dgt p b0) eqn:Eg.
        - destruct (m <=? q) eqn:E1; simpl.
          + assert (E2 : (m <=? q') = true) by (apply Z.leb_le; apply Z.leb_le in E1; lia).
            rewrite E2. simpl. apply Qle_refl.
          + destruct (m <=? q'); simpl; [|apply Qle_refl].
            apply Qlt_le_weak. apply dgt_Q. exact Eg.
        - rewrite !andb_false_r. apply Qle_refl. }
      destruct (IH b1 best H) as [best1 [Hs1 Hl1]].
      (* the scan is monotone in its starting value *)
      assert (Hmono : forall ts c c' r,
                (dQ c <= dQ c')%Q -> scan_tiers q' ts c = Ok r ->
                exists r', scan_tiers q' ts c' = Ok r' /\ (dQ r <= dQ r')%Q).
      { clear. induction ts as [|u us IHu]; intros c c' r Hc Hr; simpl in *.
        - inversion Hr; subst. exists c'. split; [reflexivity | exact Hc].
        - apply bind_Ok_inv in Hr. destruct Hr as [c1 [Hst Hr]].
          destruct (tier_step_inv _ _ _ _ Hst) as (t & m & p & -> & Hm & Hp & Hc1).
          simpl. rewrite Hm, Hp. simpl.
          apply (IHu c1 _ r); [|exact Hr]. subst c1.
          destruct (m <=? q'); simpl; [|exact Hc].
          destruct (dgt p c) eqn:E1; destruct (dgt p c') eqn:E2.
          + apply Qle_refl.
          + unfold dgt in E2. apply dlt_false_Q in E2. exact E2.
          + apply Qlt_le_weak. apply Qle_lt_trans with (dQ c'); [exact Hc|].
            apply dgt_Q. exact E2.
          + exact Hc. }
      destruct (Hmono rest b1 b1' best1 Hle Hs1) as [best' [Hs' Hl']].
      exists best'. split; [exact Hs'|].
      apply Qle_trans with (dQ best1); assumption.
Qed.

(** The tiers of the fixture: 5 % at 10 units, 12 % at 50. *)
Lemma quantity_monotone_witness :
  exists best',
    scan_tiers 50 [VDict [("min_qty"%string, VInt 10); ("percent_off"%string, VInt 5)];
                   VDict [("min_qty"%string, VInt 50); ("percent_off"%string, VInt 12)]]
      (dec_of_Z 0) = Ok best' /\ (dQ (dec_of_Z 5) <= dQ best')%Q.
Proof.
  assert (Hq : 10 <= 50) by lia.
  apply (proj2 (quantity_monotone Fixture.volume_tier None None None
                  [VDict [("min_qty"%string, VInt 10); ("percent_off"%string, VInt 5)];
                   VDict [("min_qty"%string, VInt 50); ("percent_off"%string, VInt 12)]]
                  10 50 Hq) (dec_of_Z 0) (dec_of_Z 5)).
  reflexivity.
Defined.

(** ** The approval resolver, again *)

Lemma dec_to_int_floor (t : Decimal) :
  0 <= coef t ->
  (inject_Z (dec_to_int t) <= dQ t)%Q /\ (dQ t < inject_Z (dec_to_int t) + 1)%Q.
Proof.
  intros Hc. unfold dec_to_int, dQ.
  pose proof (pow10_Q_pos (expo t)) as Hp.
  destruct (0 <=? expo t) eqn:E.
  - apply Z.leb_le in E.
    assert (Eq : (inject_Z (coef t * 10 ^ expo t) == inject_Z (coef t) * 10 ^ expo t)%Q).
    { rewrite inject_Z_mult, (pow10_Q _ E). reflexivity. }
    rewrite Eq. split; lra.
  - apply Z.leb_gt in E.
    set (s := 10 ^ (- expo t)).
    assert (Hs : 0 < s) by (unfold s; apply Z.pow_pos_nonneg; lia).
    assert (Hone : (inject_Z s * 10 ^ expo t == 1)%Q).
    { unfold s. rewrite <- (Z.mul_1_l (10 ^ _)). rewrite dQ_shift by lia.
      replace (- expo t + expo t) with 0 by lia. reflexivity. }
    rewrite Z.quot_div_nonneg by lia.
    pose proof (Z.div_mod (coef t) s ltac:(lia)) as Hdm.
    pose proof (Z.mod_pos_bound (coef t) s Hs) as Hr.
    set (k := coef t / s) in *.
    assert (H1 : (inject_Z (k * s) <= inject_Z (coef t))%Q) by (rewrite <- Zle_Qle; lia).
    assert (H2 : (inject_Z (coef t) < inject_Z ((k + 1) * s))%Q) by (rewrite <- Zlt_Qlt; lia).
    rewrite inject_Z_mult in H1, H2. rewrite inject_Z_plus in H2.
    change (inject_Z 1) with 1%Q in H2.
    assert (G1 : (inject_Z k * inject_Z s * 10 ^ expo t
                  <= inject_Z (coef t) * 10 ^ expo t)%Q).
    { apply Qmult_le_compat_r; [exact H1 | apply Qlt_le_weak; exact Hp]. }
    assert (G2 : (inject_Z (coef t) * 10 ^ expo t
                  < (inject_Z k + 1) * inject_Z s * 10 ^ expo t)%Q).
    { apply Qmult_lt_compat_r; [exact Hp | exact H2]. }
    setoid_replace (inject_Z k * inject_Z s * 10 ^ expo t)%Q
      with (inject_Z k * (inject_Z s * 10 ^ expo t))%Q in G1 by ring.
    setoid_replace ((inject_Z k + 1) * inject_Z s * 10 ^ expo t)%Q
      with ((inject_Z k + 1) * (inject_Z s * 10 ^ expo t))%Q in G2 by ring.
    rewrite Hone in G1, G2. split; lra.
Qed.

(** X10. The approval is monotone in the final total: once a manager is
    required, a larger total requires one too, and the threshold reported
    does not depend on the total.  The reported threshold is the integer
    part of the threshold compared with, when that one is not negative. *)
Theorem approval_monotone (db : list Rule) (final : Decimal) (st : approval) (n : Z) :
  approval_status db final = Ok (st, n) ->
  (forall final', exists st', approval_status db final' = Ok (st', n)) /\
  (forall final', st = manager_required -> (dQ final <= dQ final')%Q ->
     approval_status db final' = Ok (manager_required, n)) /\
  (exists t, threshold_used db = Ok t /\
     (0 <= dQ t -> inject_Z n <= dQ t /\ dQ t < inject_Z n + 1)%Q).
Proof.
  intros H. rewrite approval_status_unfold in H.
  apply bind_Ok_inv in H. destruct H as [t [Ht H]].
  assert (Hn : n = dec_to_int t) by (destruct (dle t final); inversion H; reflexivity).
  split; [|split].
  - intros final'. rewrite approval_status_unfold, Ht. simpl. subst n.
    eexists. reflexivity.
  - intros final' Hst Hle. rewrite approval_status_unfold, Ht. simpl. subst n.
    destruct (dle t final) eqn:E; [|inversion H; subst; discriminate].
    apply dle_Q in E.
    assert (E' : dle t final' = true).
    { apply dle_Q. apply Qle_trans with (dQ final); assumption. }
    rewrite E'. reflexivity.
  - exists t. split; [exact Ht|]. intros Hpos. subst n.
    apply dec_to_int_floor. apply dQ_nonneg. exact Hpos.
Qed.

Lemma approval_monotone_witness :
  approval_status Fixture.rules (mkDec 2000000 (-2)) = Ok (manager_required, 10000).
Proof.
  assert (H : approval_status Fixture.rules (mkDec 1000000 (-2)) = Ok (manager_required, 10000))
    by reflexivity.
  apply (proj1 (proj2 (approval_monotone _ _ _ _ H)) (mkDec 2000000 (-2)) eq_refl).
  discriminate.
Defined.

(** ** When a configuration rule fires *)

(** X11. A [config_adjustment] rule fires only if its condition matches,
    [parameters.attribute] is present and, when [parameters.equals] is
    present, the configuration's value for that attribute equals it.  When
    the value differs the rule is passed over.  Without [equals] the rule
    fires for every configuration its condition admits, whether or not the
    configuration has the attribute. *)
Theorem config_rule_fires_when (product : Product) (attributes : dict) (rule : Rule) :
  (forall inc record,
     config_rule product attributes rule = Ok (Some (inc, record)) ->
     is_config rule = true /\
     _matches_condition rule (Some (product_id product)) (Some attributes) None None
       = Ok true /\
     is_none (dict_get (or_empty (parameters rule)) "attribute") = false /\
     (dict_get (or_empty (parameters rule)) "equals" = VNone \/
      exists actual,
        dict_get_value attributes (dict_get (or_empty (parameters rule)) "attribute")
          = Ok actual /\
        py_eq actual (dict_get (or_empty (parameters rule)) "equals") = true)) /\
  (forall k,
     is_config rule = true ->
     _matches_condition rule (Some (product_id product)) (Some attributes) None None
       = Ok true ->
     dict_get (or_empty (parameters rule)) "attribute" = VStr k ->
     is_none (dict_get (or_empty (parameters rule)) "equals") = false ->
     py_eq (dict_get attributes k) (dict_get (or_empty (parameters rule)) "equals") = false ->
     config_rule product attributes rule = Ok None) /\
  (forall amt inc,
     is_config rule = true ->
     _matches_condition rule (Some (product_id product)) (Some attributes) None None
       = Ok true ->
     is_none (dict_get (or_empty (parameters rule)) "attribute") = false ->
     dict_get (or_empty (parameters rule)) "equals" = VNone ->
     decimal_of_value (dict_get_default (or_empty (parameters rule)) "amount" (VInt 0))
       = Ok amt ->
     lookup "percentage" (or_empty (parameters rule)) = None ->
     _round_currency amt = Ok inc ->
     exists record,
       config_rule product attributes rule = Ok (Some (inc, record)) /\
       amount record = float_of_decimal inc).
Proof.
  split; [|split].
  - intros inc record H. unfold config_rule in H. unfold is_config.
    destruct (rule_type rule =? "config_adjustment")%string; simpl in H; [|discriminate H].
    apply bind_Ok_inv in H. destruct H as [matched [Hm H]].
    destruct matched; simpl in H; [|discriminate H].
    destruct (is_none (dict_get (or_empty (parameters rule)) "attribute")) eqn:Ea;
      [discriminate H|].
    apply bind_Ok_inv in H. destruct H as [skip [Hskip H]].
    destruct skip; [discriminate H|].
    repeat split; try assumption; try reflexivity.
    destruct (is_none (dict_get (or_empty (parameters rule)) "equals")) eqn:Ee; simpl in Hskip.
    + left. destruct (dict_get (or_empty (parameters rule)) "equals");
        try discriminate Ee. reflexivity.
    + right. apply bind_Ok_inv in Hskip. destruct Hskip as [actual [Hact Hskip]].
      exists actual. split; [exact Hact|].
      destruct (py_eq actual (dict_get (or_empty (parameters rule)) "equals"));
        [reflexivity | simpl in Hskip; discriminate Hskip].
  - intros k Hc Hm Hk He Hne. unfold config_rule. unfold is_config in Hc.
    rewrite Hc, Hm, Hk, He. simpl. rewrite Hne. reflexivity.
  - intros amt inc Hc Hm Ha He Hamt Hpct Hinc. unfold config_rule.
    unfold is_config in Hc. rewrite Hc, Hm, Ha, He, Hamt. simpl.
    unfold dict_get_default at 1. rewrite Hpct. simpl. rewrite Hinc. simpl.
    eexists. split; reflexivity.
Qed.

(** A surcharge without [equals]: it fires for a configuration that has no
    colour at all. *)
Lemma config_rule_fires_when_witness :
  exists record,
    config_rule Fixture.widget [] Cases.rebate = Ok (Some (mkDec (-20000) (-2), record)) /\
    amount record = float_of_decimal (mkDec (-20000) (-2)).
Proof.
  apply (proj2 (proj2 (config_rule_fires_when Fixture.widget [] Cases.rebate))
           (dec_of_Z (-200))); reflexivity.
Defined.

(** ** Rules for another product *)

(** X12. A rule whose condition names another product is passed over by the
    adjustment and the discount loops without looking at anything else in
    it: nothing in the rest of its condition or in its parameters can raise. *)
Theorem other_product_rule_skipped (product : Product) (attributes : dict)
    (quantity : Z) (sub : Decimal) (rule : Rule) (p : Z) :
  lookup "product_id" (or_empty (condition rule)) = Some (VInt p) ->
  p <> product_id product ->
  (forall attrs qty total,
     _matches_condition rule (Some (product_id product)) attrs qty total = Ok false) /\
  config_rule product attributes rule = Ok None /\
  discount_rule product quantity sub attributes rule = Ok None.
Proof.
  intros Hp Hne.
  assert (Hm : forall attrs qty total,
             _matches_condition rule (Some (product_id product)) attrs qty total = Ok false).
  { intros attrs qty total. unfold _matches_condition. rewrite Hp. simpl.
    assert (E : (p =? product_id product) = false) by (apply Z.eqb_neq; exact Hne).
    rewrite E. reflexivity. }
  split; [exact Hm|]. split.
  - unfold config_rule. destruct (negb _); [reflexivity|]. rewrite Hm. reflexivity.
  - unfold discount_rule. destruct (negb _); [reflexivity|]. rewrite Hm. reflexivity.
Qed.

(** The markup of the fixture, asked for product 2. *)
Lemma other_product_rule_skipped_witness :
  config_rule (mkProduct 2 "Gadget" (mkDec 500 (-2))) Fixture.red Fixture.red_markup = Ok None.
Proof.
  assert (Hne : 1 <> product_id (mkProduct 2 "Gadget" (mkDec 500 (-2)))) by (simpl; lia).
  exact (proj1 (proj2 (other_product_rule_skipped (mkProduct 2 "Gadget" (mkDec 500 (-2)))
                         Fixture.red 1 (mkDec 500 (-2)) Fixture.red_markup 1 eq_refl Hne))).
Defined.

(** ** The outcomes of a quote request *)

(** X13. [/quote] answers 422 exactly for a quantity below 1 (even for an
    unknown product) and 404 exactly for an unknown product with a valid
    quantity.  When it answers, the row it stores holds what the engine
    returns: the adjustments for the product and attributes, the discount
    computed on the stored subtotal, the approval of the stored final total;
    the rules listed are the adjustment records followed by at most one
    discount record, and the floats of the breakdown are those of the stored
    amounts. *)
Theorem quote_outcomes (products : list Product) (db : list Rule) (req : QuoteRequest) :
  (quote products db req = HTTP422 <-> req_quantity req < 1) /\
  (quote products db req = HTTP404 <->
     1 <= req_quantity req /\ find_product products (req_product_id req) = None) /\
  (forall q,
     quote products db req = Response q ->
     exists product applied_c applied_d thr,
       find_product products (req_product_id req) = Some product /\
       product_id product = req_product_id req /\
       q_product_id q = req_product_id req /\
       q_quantity q = req_quantity req /\
       1 <= req_quantity req /\
       compute_config_adjustments db product (req_attributes req)
         = Ok (adjustments_total q, applied_c) /\
       compute_discounts db product (req_quantity req) (subtotal q) (req_attributes req)
         = Ok (discount_total q, applied_d) /\
       approval_status db (final_total q) = Ok (q_approval_status q, thr) /\
       bd_applied_rules (breakdown q) = applied_c ++ applied_d /\
       (List.length applied_d <= 1)%nat /\
       bd_subtotal (breakdown q) = float_of_decimal (subtotal q) /\
       bd_adjustments_total (breakdown q) = float_of_decimal (adjustments_total q) /\
       bd_discount_total (breakdown q) = float_of_decimal (discount_total q) /\
       bd_final_total (breakdown q) = float_of_decimal (final_total q)).
Proof.
  unfold quote.
  destruct (Z.ltb_spec (req_quantity req) 1) as [Hq|Hq].
  - split; [split; [intros _; exact Hq | reflexivity]|].
    split; [split; [discriminate | intros [H _]; lia]|].
    intros q H. discriminate H.
  - destruct (find_product products (req_product_id req)) as [product|] eqn:Ef.
    + unfold handler.
      match goal with |- context [match ?m with Ok _ => _ | Raise _ => _ end] =>
        destruct m as [r|e] eqn:E end.
      * split; [split; [discriminate | lia]|].
        split; [split; [discriminate | intros [_ H]; discriminate H]|].
        intros q H. inversion H; subst r; clear H.
        apply bind_Ok_inv in E. destruct E as [[adj applied_c] [Hadj E]].
        apply bind_Ok_inv in E. destruct E as [gross [_ E]].
        apply bind_Ok_inv in E. destruct E as [sub [_ E]].
        apply bind_Ok_inv in E. destruct E as [[disc applied_d] [Hdisc E]].
        apply bind_Ok_inv in E. destruct E as [fin [_ E]].
        apply bind_Ok_inv in E. destruct E as [[appr thr] [Happr E]].
        inversion E; subst q; clear E. simpl.
        exists product, applied_c, applied_d, thr.
        assert (Hid : product_id product = req_product_id req).
        { unfold find_product in Ef. apply find_some in Ef. destruct Ef as [_ Ef].
          apply Z.eqb_eq in Ef. exact Ef. }
        repeat split; try assumption; try reflexivity.
        destruct (compute_discounts_shape _ _ _ _ _ _ _ Hdisc) as [[_ ->]|[_ [r ->]]];
          simpl; lia.
      * split; [split; [discriminate | lia]|].
        split; [split; [discriminate | intros [_ H]; discriminate H]|].
        intros q H. discriminate H.
    + split; [split; [discriminate | lia]|].
      split; [split; [intros _; split; [exact Hq | reflexivity] | reflexivity]|].
      intros q H. discriminate H.
Qed.

(** ** Order discounts *)



(** ** Attribute conditions met exactly *)

Lemma fcompare_refl (f : pyfloat) : fcompare f f = Eq.
Proof.
  destruct f as [m e|[|]]; simpl; try reflexivity. apply Z.compare_refl.
Qed.

Lemma py_eq_scalar_refl (v : value) : scalar v = true -> py_eq v v = true.
Proof.
  destruct v; simpl; intros H; try discriminate H; try reflexivity.
  - destruct b; reflexivity.
  - apply Z.eqb_refl.
  - unfold feqb. rewrite fcompare_refl. reflexivity.
  - apply String.eqb_refl.
Qed.

(** X15. An attribute condition is met by every configuration that carries,
    for each key of the condition, the very value the condition expects
    (null, boolean, number or string); what else the configuration carries
    does not matter. *)
Theorem attributes_match_exact (attrs attr_conds : dict) :
  (forall k e, In (k, e) attr_conds -> scalar e = true /\ lookup k attrs = Some e) ->
  attributes_match attrs attr_conds = true.
Proof.
  intros H. apply attributes_match_spec. intros k e Hin.
  destruct (H k e Hin) as [Hs Hl]. unfold dict_get. rewrite Hl.
  apply py_eq_scalar_refl. exact Hs.
Qed.

Lemma attributes_match_exact_witness :
  attributes_match [("size"%string, VStr "L"); ("color"%string, VStr "red")]
    [("color"%string, VStr "red")] = true.
Proof.
  apply attributes_match_exact. intros k e [E|[]]. inversion E; subst.
  split; reflexivity.
Defined.
